(** * manim init: project and scene scaffolding

    A shallow embedding of [manim/cli/init/commands.py]: the functions
    [select_resolution], [update_cfg], [project] and [scene], over an explicit
    model of the file system, the terminal and the libraries they call. *)

From Stdlib Require Import Ascii.
From stdpp Require Import gmap strings list fin_maps pretty.

Open Scope string_scope.

(** ** Python strings *)

Module Str.

(** [s[n:]] *)
Fixpoint drop (n : nat) (s : string) : string :=
  match n, s with
  | O, _ => s
  | S n, String _ s' => drop n s'
  | S _, EmptyString => EmptyString
  end.

(** [s[:n]] *)
Fixpoint take (n : nat) (s : string) : string :=
  match n, s with
  | O, _ => EmptyString
  | S n, String c s' => String c (take n s')
  | S _, EmptyString => EmptyString
  end.

(** [s.replace(old, new, 1)]: the leftmost occurrence of [old] is replaced;
    the scan goes left to right and stops at the first position where [old]
    is a prefix of what remains. *)
Fixpoint replace_1 (old new s : string) : string :=
  if String.prefix old s then new +:+ drop (String.length old) s
  else match s with
       | EmptyString => EmptyString
       | String c s' => String c (replace_1 old new s')
       end.

(** [s.split("/")] *)
Fixpoint split_slash (s : string) : list string :=
  match s with
  | EmptyString => [EmptyString]
  | String c s' =>
      if decide (c = "/"%char) then EmptyString :: split_slash s'
      else match split_slash s' with
           | h :: t => String c h :: t
           | [] => [String c EmptyString]
           end
  end.

(** number of ["/"] characters the string starts with *)
Fixpoint leading_slashes (s : string) : nat :=
  match s with
  | String c s' => if decide (c = "/"%char) then S (leading_slashes s') else O
  | EmptyString => O
  end.

(** [s.rfind(".")], [None] for -1 *)
Fixpoint rfind_dot (s : string) : option nat :=
  match s with
  | EmptyString => None
  | String c s' =>
      match rfind_dot s' with
      | Some i => Some (S i)
      | None => if decide (c = "."%char) then Some O else None
      end
  end.

(** [s] occurs in [t] at offset [length pre] *)
Definition occurs_at (s pre t : string) : Prop :=
  ∃ post, t = pre +:+ s +:+ post.

End Str.

(** ** Exceptions and Python values *)

Inductive exn :=
  | KeyError (key : string)
  | IndexError
  | TypeError
  | ValueError
  | Abort
  | FileNotFoundError
  | FileExistsError
  | IsADirectoryError
  | NotADirectoryError
  | ParsingError
  | MissingSectionHeaderError
  | DuplicateSectionError
  | DuplicateOptionError
  | OtherError (what : string).

(** The values a config dictionary holds: numbers, text, and a pair of
    numbers for the resolution. *)
Inductive value :=
  | VInt (n : Z)
  | VStr (s : string)
  | VPair (a b : Z).

(** [str(v)] *)
Definition str (v : value) : string :=
  match v with
  | VInt n => pretty n
  | VStr s => s
  | VPair a b => "(" +:+ pretty a +:+ ", " +:+ pretty b +:+ ")"
  end.

(** [v[i]] for [i] in 0, 1: the component of a tuple, a character of a
    string, [TypeError] for a number. *)
Definition getitem (v : value) (i : nat) : exn + value :=
  match v with
  | VInt _ => inl TypeError
  | VPair a b => inr (VInt (match i with O => a | _ => b end))
  | VStr s =>
      match String.get i s with
      | Some c => inr (VStr (String c EmptyString))
      | None => inl IndexError
      end
  end.

(** ** pathlib *)

(** A pure path: its anchor ([""], ["/"] or ["//"]) and its components, none
    of which is empty, ["."] or holds a separator. *)
Abbreviation path := (string * list string)%type.

Module Pathlib.

Definition anchor (s : string) : string :=
  match Str.leading_slashes s with
  | O => ""
  | 2 => "//"
  | _ => "/"
  end.

(** [Path(s)] *)
Definition Path (s : string) : path :=
  (anchor s, filter (λ c, c ≠ "" ∧ c ≠ ".") (Str.split_slash s)).

(** [p / s] *)
Definition joinpath (p : path) (s : string) : path :=
  let q := Path s in
  if decide (q.1 = "") then (p.1, (p.2 ++ q.2)%list) else q.

(** [p.name] *)
Definition name (p : path) : string := default "" (last p.2).

(** [p.suffix]: [name[i:]] for [i = name.rfind(".")] when
    [0 < i < len(name) - 1], else empty. *)
Definition suffix (p : path) : string :=
  let n := name p in
  match Str.rfind_dot n with
  | Some i =>
      if decide (0 < i ∧ i < String.length n - 1) then Str.drop i n else ""
  | None => ""
  end.

Definition with_name (p : path) (n : string) : path :=
  (p.1, (removelast p.2 ++ [n])%list).

(** [p.with_suffix(sfx)] *)
Definition with_suffix (p : path) (sfx : string) : exn + path :=
  if decide ((sfx ≠ "" ∧ String.prefix "." sfx = false) ∨ sfx = ".") then inl ValueError
  else
    let n := name p in
    if decide (n = "") then inl ValueError
    else
      let old_suffix := suffix p in
      if decide (old_suffix = "") then inr (with_name p (n +:+ sfx))
      else inr (with_name p
                  (Str.take (String.length n - String.length old_suffix) n +:+ sfx)).

End Pathlib.

(** ** The world the commands run in *)

(** A Python [dict] with string keys: its items in the order of their
    insertion.  An assignment to a key that is there puts the value where
    the key stands; a new key goes to the end. *)
Fixpoint dict_get {V} (d : list (string * V)) (k : string) : option V :=
  match d with
  | [] => None
  | (k', v) :: r => if decide (k' = k) then Some v else dict_get r k
  end.

(** [d[k] = v] *)
Fixpoint dict_set {V} (d : list (string * V)) (k : string) (v : V)
    : list (string * V) :=
  match d with
  | [] => [(k, v)]
  | (k', v') :: r => if decide (k' = k) then (k, v) :: r else (k', v') :: dict_set r k v
  end.

Global Instance dict_lookup {V} : Lookup string V (list (string * V)) :=
  λ k d, dict_get d k.
Global Instance dict_insert {V} : Insert string V (list (string * V)) :=
  λ k v d, dict_set d k v.

(** A config store: the sections that [configparser] holds, each with its
    options and their values, in the order in which they are written.  The
    ["DEFAULT"] section, when it has options, is the first entry. *)
Abbreviation ConfigStore := (list (string * list (string * string))).

(** What a path names: a directory, or a regular file with its text. *)
Inductive node :=
  | Dir
  | File (text : string).

Abbreviation FS := (gmap path node).

(** A config dictionary ([dict[str, Any]]), in iteration order. *)
Abbreviation dict := (list (string * value)).

Inductive message :=
  | FolderExists (p : path)
  | ShowConfig (cfg : dict).

Record World := mkWorld {
  fs : FS;                        (* paths relative to the working directory *)
  stdin : list string;            (* the lines the user is going to type *)
  console : list message;         (* what [console.print] has shown *)
  copied : list (path * string);  (* calls of [copy_template_files] *)
  imported : list path;           (* calls of [add_import_statement] *)
}.

Definition set_fs (f : FS) (w : World) : World :=
  mkWorld f (stdin w) (console w) (copied w) (imported w).
Definition set_stdin (l : list string) (w : World) : World :=
  mkWorld (fs w) l (console w) (copied w) (imported w).

(** [w'] differs from [w] at most in what is left to read from the terminal. *)
Definition typed_only (w w' : World) : Prop := w' = set_stdin (stdin w') w.

(** Computations: they may raise, and what they did before raising stays. *)
Definition M (A : Type) : Type := World → (exn + A) * World.

Global Instance M_ret : MRet M := λ A a w, (inr a, w).
Global Instance M_bind : MBind M := λ A B k m w,
  match m w with
  | (inr a, w') => k a w'
  | (inl e, w') => (inl e, w')
  end.

(** a computation that leaves everything but the terminal input alone *)
Definition quiet {A} (m : M A) : Prop := ∀ w, typed_only w (m w).2.

Definition raise {A} (e : exn) : M A := λ w, (inl e, w).
Definition lift {A} (r : exn + A) : M A := λ w, (r, w).
Definition get_fs : M FS := λ w, (inr (fs w), w).

(** ** Libraries and collaborators *)

(** Python built-ins that the terminal layer applies to what the user types. *)
Class Builtins := {
  str_lower : string → string;
  str_strip : string → string;
  str_casefold : string → string;
  int_of_str : string → option Z;    (* [int(s)], [None] for [ValueError] *)
}.

(** [configparser.ConfigParser] with its defaults.  [write_ini c] is what
    [config.write] puts into the file for the store [c]: the text, and the
    exception that it raises after having written that much, if any. *)
Class ConfigParserLib := {
  optionxform : string → string;           (* option names are stored through it *)
  before_set : string → bool;              (* the interpolation syntax of a value is valid *)
  parse_ini : string → exn + ConfigStore;  (* [config.read] of a file with this text *)
  write_ini : ConfigStore → string * option exn;
}.

Record quality := mkQuality {
  pixel_height : Z;
  pixel_width : Z;
}.

(** [manim.constants.QUALITIES] and the functions of [manim.utils.file_ops]. *)
Class Collaborators := {
  QUALITIES : list (string * quality);
  get_template_names : FS → list string;
  get_template_path : path;
  copy_template_files : path → string → FS → exn + FS;
  add_import_statement : path → FS → exn + FS;
}.

(** ** File operations *)

(** A path is looked up as the program names it.  A path all of whose
    components are [".."] (or that has none) names the working directory,
    one of its ancestors, or the root: a directory that is always there.
    Permissions, links and devices are outside the model. *)
Definition stat (f : FS) (p : path) : option node :=
  match f !! p with
  | Some n => Some n
  | None => if bool_decide (Forall (λ c, c = "..") p.2) then Some Dir else None
  end.

(** [p.parent] *)
Definition parent (p : path) : path := (p.1, removelast p.2).

(** Why nothing can be made at [p]: the directory that is to hold it is
    missing, or is a file. *)
Definition check_parent (f : FS) (p : path) : option exn :=
  if bool_decide (Forall (λ c, c = "..") (removelast p.2)) then None
  else match f !! parent p with
       | Some Dir => None
       | Some (File _) => Some NotADirectoryError
       | None => Some FileNotFoundError
       end.

(** the text of a regular file *)
Definition file_text (n : node) : option string :=
  match n with
  | Dir => None
  | File t => Some t
  end.

(** [p.is_dir()] *)
Definition is_dir (p : path) : M bool := λ w,
  (inr (match stat (fs w) p with Some Dir => true | _ => false end), w).

(** [p.is_file()] *)
Definition is_file (p : path) : M bool := λ w,
  (inr (bool_decide (is_Some (stat (fs w) p ≫= file_text))), w).

(** [p.mkdir()] *)
Definition mkdir (p : path) : M unit := λ w,
  match stat (fs w) p with
  | Some _ => (inl FileExistsError, w)
  | None =>
      match check_parent (fs w) p with
      | Some e => (inl e, w)
      | None => (inr tt, set_fs (<[p := Dir]> (fs w)) w)
      end
  end.

(** [p.read_text()] *)
Definition read_text (p : path) : M string := λ w,
  match stat (fs w) p with
  | None => (inl FileNotFoundError, w)
  | Some n =>
      match file_text n with
      | Some t => (inr t, w)
      | None => (inl IsADirectoryError, w)
      end
  end.

(** [p.open(mode)] for a mode that writes: the text that the file has then
    ([truncate] for mode ["w"], kept for mode ["a"]; a missing file is
    created empty). *)
Definition open_for_writing (truncate : bool) (p : path) (f : FS) : exn + string :=
  match stat f p with
  | Some Dir => inl IsADirectoryError
  | Some (File t) => inr (if truncate then "" else t)
  | None =>
      match check_parent f p with
      | Some e => inl e
      | None => inr ""
      end
  end.

(** [p.write_text(s)] *)
Definition write_text (p : path) (s : string) : M unit := λ w,
  match open_for_writing true p (fs w) with
  | inl e => (inl e, w)
  | inr t => (inr tt, set_fs (<[p := File (t +:+ s)]> (fs w)) w)
  end.

(** [with p.open("a") as f: f.write(s)]: mode ["a"] creates a missing file. *)
Definition append_text (p : path) (s : string) : M unit := λ w,
  match open_for_writing false p (fs w) with
  | inl e => (inl e, w)
  | inr t => (inr tt, set_fs (<[p := File (t +:+ s)]> (fs w)) w)
  end.

Section Files.
Context `{ConfigParserLib}.

(** [config = ConfigParser(); config.read(p)]: a file that cannot be opened
    is skipped, which leaves the parser empty. *)
Definition config_read (p : path) (f : FS) : exn + ConfigStore :=
  match stat f p with
  | None | Some Dir => inr []
  | Some (File t) => parse_ini t
  end.

(** [with p.open("w") as conf: config.write(conf)]: the file is emptied when
    it is opened; what [config.write] has written stays when it raises. *)
Definition config_write (p : path) (c : ConfigStore) : M unit := λ w,
  match open_for_writing true p (fs w) with
  | inl e => (inl e, w)
  | inr t =>
      let w := set_fs (<[p := File (t +:+ (write_ini c).1)]> (fs w)) w in
      match (write_ini c).2 with
      | Some e => (inl e, w)
      | None => (inr tt, w)
      end
  end.

(** the store [c] is written in full, and the text reads back as [c] *)
Definition reads_back (c : ConfigStore) : Prop :=
  (write_ini c).2 = None ∧ parse_ini (write_ini c).1 = inr c.

End Files.

(** ** click: prompts on the terminal *)

(** What a parameter type makes of a line. *)
Inductive converted (A : Type) :=
  | Converted (a : A)
  | Rejected                (* usage error: the prompt is shown again *)
  | Raises (e : exn).
Arguments Converted {A} a.
Arguments Rejected {A}.
Arguments Raises {A} e.

Section Click.
Context `{Builtins}.

(** [click.prompt]: an empty line stands for the default; a line that the
    type rejects, or an empty line without a default, asks again; the end
    of the input aborts.  [dflt] is the default after conversion. *)
Fixpoint prompt_loop {A} (conv : string → converted A) (dflt : converted A)
    (lines : list string) : (exn + A) * list string :=
  match lines with
  | [] => (inl Abort, [])
  | l :: rest =>
      match (if decide (l = "") then dflt else conv l) with
      | Converted a => (inr a, rest)
      | Rejected => prompt_loop conv dflt rest
      | Raises e => (inl e, rest)
      end
  end.

Definition click_prompt {A} (conv : string → converted A) (dflt : converted A) : M A :=
  λ w, let '(r, rest) := prompt_loop conv dflt (stdin w) in (r, set_stdin rest w).

Definition STRING (s : string) : converted value := Converted (VStr s).

Definition INT (s : string) : converted value :=
  match int_of_str s with
  | Some n => Converted (VInt n)
  | None => Rejected
  end.

(** [Choice(choices)] *)
Definition Choice (choices : list string) (s : string) : converted string :=
  if decide (s ∈ choices) then Converted s else Rejected.

(** [Choice(choices, case_sensitive=False)]: the choices are keyed by their
    case-folded form, a later choice replacing an earlier one. *)
Definition Choice_nocase (choices : list string) (s : string) : converted string :=
  match last (filter (λ c, str_casefold c = str_casefold s) choices) with
  | Some c => Converted c
  | None => Rejected
  end.

(** [click.prompt(text, default=v)]: the type is that of the default. *)
Definition prompt_default (v : value) : M value :=
  match v with
  | VInt _ => click_prompt INT (Converted v)
  | VStr _ => click_prompt STRING (Converted v)
  | VPair _ _ => click_prompt INT (Raises TypeError)
  end.

(** [click.confirm(text, default=d, abort=a)] *)
Fixpoint confirm_loop (d : option bool) (lines : list string)
    : (exn + bool) * list string :=
  match lines with
  | [] => (inl Abort, [])
  | l :: rest =>
      let v := str_strip (str_lower l) in
      if decide (v ∈ ["y"; "yes"]) then (inr true, rest)
      else if decide (v ∈ ["n"; "no"]) then (inr false, rest)
      else match d with
           | Some b => if decide (v = "") then (inr b, rest) else confirm_loop d rest
           | None => confirm_loop d rest
           end
  end.

Definition click_confirm (d : option bool) (abort : bool) : M bool :=
  λ w, match confirm_loop d (stdin w) with
       | (inr rv, rest) =>
           if abort && negb rv then (inl Abort, set_stdin rest w)
           else (inr rv, set_stdin rest w)
       | (inl e, rest) => (inl e, set_stdin rest w)
       end.

Definition console_print (m : message) : M unit := λ w,
  (inr tt, mkWorld (fs w) (stdin w) (console w ++ [m])%list (copied w) (imported w)).

End Click.

(** ** commands.py *)

Definition CFG_DEFAULTS : dict :=
  [ ("frame_rate", VInt 30);
    ("background_color", VStr "BLACK");
    ("background_opacity", VInt 1);
    ("scene_names", VStr "Default");
    ("resolution", VPair 854 480) ].

Global Instance exn_bind : MBind (sum exn) := λ A B k m,
  match m with
  | inr a => k a
  | inl e => inl e
  end.

Section Commands.
Context `{Builtins} `{ConfigParserLib} `{Collaborators}.

Definition label (res : Z * Z) : string := pretty res.1 +:+ "p".

Definition select_resolution : M (Z * Z) :=
  let resolution_options :=
    (λ quality, (pixel_height quality.2, pixel_width quality.2)) <$> QUALITIES in
  match resolution_options with
  | [] => raise IndexError                          (* pop from empty list *)
  | _ =>
      let resolution_options := removelast resolution_options in
      let choices := label <$> resolution_options in
      choice ← click_prompt (Choice choices) (Choice choices "480p");
      let matches := filter (λ res, label res = choice) resolution_options in
      match matches with
      | [] => raise IndexError
      | res :: _ => mret res
      end
  end.

(** [cli_config[key] = v] *)
Definition set_option (cli_config : list (string * string)) (key v : string)
    : exn + list (string * string) :=
  if decide (v = "") then inr (<[optionxform key := v]> cli_config)
  else if before_set v then inr (<[optionxform key := v]> cli_config)
  else inl ValueError.

(** the loop of [update_cfg] *)
Fixpoint update_items (items : dict) (cli_config : list (string * string))
    : exn + list (string * string) :=
  match items with
  | [] => inr cli_config
  | (key, value) :: rest =>
      if decide (key = "resolution") then
        v0 ← getitem value 0;
        c1 ← set_option cli_config "pixel_width" (str v0);
        v1 ← getitem value 1;
        c2 ← set_option c1 "pixel_height" (str v1);
        update_items rest c2
      else
        c ← set_option cli_config key (str value);
        update_items rest c
  end.

(** the option names that an entry of the incoming config assigns *)
Definition assigns (key : string) : list string :=
  if decide (key = "resolution")
  then [optionxform "pixel_width"; optionxform "pixel_height"]
  else [optionxform key].

(** option [k] of the section is mentioned by the incoming config *)
Definition mentions (cfg_dict : dict) (k : string) : Prop :=
  ∃ key, key ∈ cfg_dict.*1 ∧ k ∈ assigns key.

Definition update_cfg (cfg_dict : dict) (project_cfg_path : path) : M unit :=
  f ← get_fs;
  config ← lift (config_read project_cfg_path f);
  match config !! "CLI" with
  | None => raise (KeyError "CLI")
  | Some cli_config =>
      cli_config ← lift (update_items cfg_dict cli_config);
      config_write project_cfg_path (<["CLI" := cli_config]> config)
  end.

(** every store that a call on the store [c] may write reads back as it is *)
Definition written_reads_back (cfg_dict : dict) (c : ConfigStore) : Prop :=
  ∀ sec sec', c !! "CLI" = Some sec → update_items cfg_dict sec = inr sec' →
    reads_back (<["CLI" := sec']> c).

(** the loop over [CFG_DEFAULTS] on the interactive path of [project] *)
Fixpoint ask_settings (template_name : string) (defaults : dict) (new_cfg : dict)
    : M dict :=
  match defaults with
  | [] => mret new_cfg
  | (key, value) :: rest =>
      v ← (if decide (key = "scene_names") then
             mret (VStr (template_name +:+ "Template"))
           else if decide (key = "resolution") then
             res ← select_resolution; mret (VPair res.1 res.2)
           else prompt_default value);
      ask_settings template_name rest (dict_set new_cfg key v)
  end.

Definition prompt_template : M string :=
  f ← get_fs;
  let names := get_template_names f in
  click_prompt (Choice_nocase names) (Choice_nocase names "Default").

Definition call_copy_template_files (project_name : path) (template_name : string)
    : M unit := λ w,
  let w := mkWorld (fs w) (stdin w) (console w)
             (copied w ++ [(project_name, template_name)])%list (imported w) in
  match copy_template_files project_name template_name (fs w) with
  | inr f => (inr tt, set_fs f w)
  | inl e => (inl e, w)
  end.

Definition call_add_import_statement (file : path) : M unit := λ w,
  let w := mkWorld (fs w) (stdin w) (console w) (copied w)
             (imported w ++ [file])%list in
  match add_import_statement file (fs w) with
  | inr f => (inr tt, set_fs f w)
  | inl e => (inl e, w)
  end.

(** the project name: the argument, or else what the user types *)
Definition ask_project_name (project_name : option path) : M path :=
  match project_name with
  | Some p => mret p
  | None => click_prompt (λ s, Converted (Pathlib.Path s)) Rejected
  end.

Definition project (default_settings : bool) (project_name : option path) : M unit :=
  project_name ← ask_project_name project_name;
  template_name ← prompt_template;
  exists_ ← is_dir project_name;
  if exists_ : bool then console_print (FolderExists project_name)
  else
    mkdir project_name;;
    let new_cfg_path := Pathlib.joinpath project_name "manim.cfg" in
    if negb default_settings then
      new_cfg ← ask_settings template_name CFG_DEFAULTS [];
      console_print (ShowConfig new_cfg);;
      go ← click_confirm (Some true) true;
      if go : bool then
        call_copy_template_files project_name template_name;;
        update_cfg new_cfg new_cfg_path
      else mret tt
    else
      call_copy_template_files project_name template_name;;
      update_cfg CFG_DEFAULTS new_cfg_path.

(** the suffix rule of [scene] for a given file name *)
Definition target_of (file_name : string) : exn + path :=
  let file_name := Pathlib.Path file_name in
  if decide (Pathlib.suffix file_name ≠ ".py") then
    Pathlib.with_suffix file_name (Pathlib.suffix file_name +:+ ".py")
  else inr file_name.

Definition separator : string := String "010" (String "010" (String "010" "")).

(** the second half of [scene]: writing the rendered stub *)
Definition insert_scene (file_name : option string) (scene : string) : M unit :=
  match file_name with
  | Some name =>
      if decide (name = "") then append_text (Pathlib.Path "main.py") (separator +:+ scene)
      else
        file_name ← lift (target_of name);
        there ← is_file file_name;
        if there : bool then append_text file_name (separator +:+ scene)
        else
          write_text file_name (separator +:+ scene);;
          call_add_import_statement file_name
  | None => append_text (Pathlib.Path "main.py") (separator +:+ scene)
  end.

Definition scene (scene_name : string) (file_name : option string) : M unit :=
  template_name ← prompt_template;
  scene ← read_text (Pathlib.joinpath get_template_path (template_name +:+ ".mtp"));
  let scene := Str.replace_1 (template_name +:+ "Template") scene_name scene in
  insert_scene file_name scene.

End Commands.

Section Catalog.
Context `{Collaborators}.

(** the tiers that [select_resolution] offers: the pairs of all entries of
    [QUALITIES] but the last, in order *)
Definition offered : list (Z * Z) :=
  removelast ((λ quality, (pixel_height quality.2, pixel_width quality.2)) <$> QUALITIES).

End Catalog.

(** ** A sample installation, for the closed examples *)

Module Sample.

Definition lower_ascii (c : ascii) : ascii :=
  let n := nat_of_ascii c in
  if (65 <=? n)%nat && (n <=? 90)%nat then ascii_of_nat (n + 32) else c.

Fixpoint lower (s : string) : string :=
  match s with
  | EmptyString => EmptyString
  | String c s' => String (lower_ascii c) (lower s')
  end.

(** [c.isspace()] on ASCII *)
Definition is_space (c : ascii) : bool :=
  let n := nat_of_ascii c in
  ((9 <=? n)%nat && (n <=? 13)%nat) || ((28 <=? n)%nat && (n <=? 32)%nat).

Fixpoint lstrip (s : string) : string :=
  match s with
  | String c s' => if is_space c then lstrip s' else s
  | EmptyString => EmptyString
  end.

Definition rstrip (s : string) : string := String.rev (lstrip (String.rev s)).

Definition strip (s : string) : string := rstrip (lstrip s).

Fixpoint digits (s : string) (acc : Z) : option Z :=
  match s with
  | EmptyString => Some acc
  | String c s' =>
      match Ascii.is_nat c with
      | Some d => digits s' (10 * acc + Z.of_nat d)%Z
      | None => None
      end
  end.

(** plain decimal literals, with an optional minus sign *)
Definition decimal (s : string) : option Z :=
  match s with
  | EmptyString => None
  | String "-" EmptyString => None
  | String "-" s' => Z.opp <$> digits s' 0%Z
  | _ => digits s 0%Z
  end.

(** ASCII text: lower-casing and case-folding agree. *)
Global Instance builtins : Builtins := {|
  str_lower := lower;
  str_strip := strip;
  str_casefold := lower;
  int_of_str := decimal;
|}.

Definition newline : string := String "010" "".
Definition tab : string := String "009" "".

(** *** configparser

    [ConfigParser] with its defaults, as the library of Python 3.8 to 3.13
    reads and writes INI text made of ASCII characters: the delimiters are
    ["="] and [":"], a line that starts with ["#"] or [";"] is a comment, a
    line that is indented deeper than the option before it continues that
    option's value, and a section or an option that comes twice is an
    error ([strict]). *)

(** [BasicInterpolation.before_set]: once every ["%%"] and every
    ["%(name)s"] is taken out, no ["%"] is left. *)
Fixpoint drop_escaped (s : string) : string :=
  match s with
  | String "%" (String "%" s') => drop_escaped s'
  | String c s' => String c (drop_escaped s')
  | EmptyString => EmptyString
  end.

(** for [s] that follows ["%("]: what follows the first [")"], when the name
    before it is not empty and an ["s"] comes right after it *)
Fixpoint key_end (s : string) (seen : nat) : option string :=
  match s with
  | String ")" (String "s" s') => match seen with O => None | S _ => Some s' end
  | String ")" _ => None
  | String _ s' => key_end s' (S seen)
  | EmptyString => None
  end.

Fixpoint drop_keys (n : nat) (s : string) : string :=
  match n, s with
  | S n, String "%" (String "(" s') =>
      match key_end s' 0 with
      | Some rest => drop_keys n rest
      | None => String "%" (String "(" (drop_keys n s'))
      end
  | S n, String c s' => String c (drop_keys n s')
  | _, _ => s
  end.

Fixpoint has_percent (s : string) : bool :=
  match s with
  | EmptyString => false
  | String c s' => if decide (c = "%"%char) then true else has_percent s'
  end.

Definition valid_interpolation (v : string) : bool :=
  let v := drop_escaped v in
  negb (has_percent (drop_keys (String.length v) v)).

(** text-mode reading: ["\r\n"] and a lone ["\r"] arrive as ["\n"] *)
Fixpoint universal_newlines (s : string) : string :=
  match s with
  | String "013" s' =>
      match s' with
      | String "010" _ => universal_newlines s'
      | _ => String "010" (universal_newlines s')
      end
  | String c s' => String c (universal_newlines s')
  | EmptyString => EmptyString
  end.

Fixpoint split_newline (s : string) : list string :=
  match s with
  | EmptyString => [EmptyString]
  | String c s' =>
      if decide (c = "010"%char) then EmptyString :: split_newline s'
      else match split_newline s' with
           | h :: t => String c h :: t
           | [] => [String c EmptyString]
           end
  end.

(** the lines of a text file, without their line ends *)
Definition lines (text : string) : list string :=
  let l := split_newline (universal_newlines text) in
  if decide (last l = Some "") then removelast l else l.

(** the column of the first character that is not white space *)
Definition indent (line : string) : nat :=
  String.length line - String.length (lstrip line).

Definition is_comment (value : string) : bool :=
  String.prefix "#" value || String.prefix ";" value.

(** index of the last ["]"] *)
Fixpoint rfind_bracket (s : string) : option nat :=
  match s with
  | EmptyString => None
  | String c s' =>
      match rfind_bracket s' with
      | Some i => Some (S i)
      | None => if decide (c = "]"%char) then Some O else None
      end
  end.

(** [SECTCRE.match(value)]: ["["], a header of at least one character, as
    long as can be, and ["]"]. *)
Definition section_header (value : string) : option string :=
  match value with
  | String "[" rest =>
      match rfind_bracket rest with
      | Some (S i) => Some (Str.take (S i) rest)
      | _ => None
      end
  | _ => None
  end.

(** index of the first delimiter *)
Fixpoint find_delimiter (s : string) : option nat :=
  match s with
  | EmptyString => None
  | String c s' =>
      if decide (c = "="%char ∨ c = ":"%char) then Some O
      else S <$> find_delimiter s'
  end.

(** [_optcre.match(value)]: the option name, as short as can be, and the
    value, with the white space around the first delimiter left out. *)
Definition option_line (value : string) : option (string * string) :=
  d ← find_delimiter value;
  Some (rstrip (Str.take d value), strip (Str.drop (S d) value)).

(** The parser while it reads: the options hold the lines of their value. *)
Record reader := mkReader {
  sections : list (string * list (string * list string));
  cursect : option string;     (* the section being read *)
  optname : option string;     (* the option that a deeper line continues *)
  indent_level : nat;
  bad_line : bool;             (* a [ParsingError] is due at the end *)
}.

Definition add_line (sect opt value : string) (r : reader) : reader :=
  let old := default [] (sections r !! sect) in
  mkReader (<[sect := <[opt := (default [] (old !! opt) ++ [value])%list]> old]> (sections r))
    (cursect r) (optname r) (indent_level r) (bad_line r).

(** the option being read, if a line can go on with it *)
Definition open_option (r : reader) : option (string * string) :=
  sect ← cursect r;
  opt ← optname r;
  if decide (opt = "") then None else Some (sect, opt).

(** one round of the loop of [RawConfigParser._read] *)
Definition read_line (r : reader) (line : string) : exn + reader :=
  let value := strip line in
  if is_comment value then inr r
  else if decide (value = "") then
    inr (match open_option r with
         | Some (sect, opt) => add_line sect opt "" r
         | None => r
         end)
  else
    let cur_indent_level := indent line in
    let continuation :=
      match open_option r with
      | Some (sect, opt) =>
          if decide (indent_level r < cur_indent_level)%nat
          then Some (add_line sect opt value r) else None
      | None => None
      end in
    match continuation with
    | Some r' => inr r'
    | None =>
        match section_header value with
        | Some sectname =>
            if decide (sectname = "DEFAULT") then
              inr (mkReader (<[sectname := default [] (sections r !! sectname)]> (sections r))
                     (Some sectname) None cur_indent_level (bad_line r))
            else if decide (is_Some (sections r !! sectname)) then inl DuplicateSectionError
            else
              inr (mkReader (<[sectname := []]> (sections r))
                     (Some sectname) None cur_indent_level (bad_line r))
        | None =>
            match cursect r with
            | None => inl MissingSectionHeaderError
            | Some sect =>
                match option_line value with
                | Some (name, optval) =>
                    let opt := lower name in
                    let old := default [] (sections r !! sect) in
                    if decide (is_Some (old !! opt)) then inl DuplicateOptionError
                    else
                      inr (mkReader (<[sect := <[opt := [optval]]> old]> (sections r))
                             (Some sect) (Some opt) cur_indent_level
                             (bad_line r || bool_decide (name = "")))
                | None =>
                    inr (mkReader (sections r) (cursect r) (optname r)
                           cur_indent_level true)
                end
            end
        end
    end.

Fixpoint read_lines (r : reader) (l : list string) : exn + reader :=
  match l with
  | [] => inr r
  | line :: rest =>
      match read_line r line with
      | inr r' => read_lines r' rest
      | inl e => inl e
      end
  end.

(** [_join_multiline_values] *)
Definition join (value : list string) : string :=
  rstrip (String.concat newline value).

(** the sections but the default one *)
Definition named_sections {V} (c : list (string * V)) : list (string * V) :=
  filter (λ s, s.1 ≠ "DEFAULT") c.

(** [config.read] of a text, in a parser that is new; the default section
    comes first, and only if it has options. *)
Definition read (text : string) : exn + ConfigStore :=
  match read_lines (mkReader [] None None 0 false) (lines text) with
  | inl e => inl e
  | inr r =>
      if bad_line r then inl ParsingError
      else
        let c := (λ s : string * list (string * list string),
                    (s.1, (λ o : string * list string, (o.1, join o.2)) <$> s.2))
                   <$> sections r in
        inr (match c !! "DEFAULT" with
             | Some (o :: d) => ("DEFAULT", o :: d) :: named_sections c
             | _ => named_sections c
             end)
  end.

(** [value.replace("\n", "\n\t")] *)
Fixpoint indent_value (value : string) : string :=
  match value with
  | String c s' =>
      if decide (c = "010"%char) then String c (String "009" (indent_value s'))
      else String c (indent_value s')
  | EmptyString => EmptyString
  end.

(** [_write_section] *)
Definition write_section (name : string) (options : list (string * string)) : string :=
  "[" +:+ name +:+ "]" +:+ newline +:+
  String.concat "" ((λ o : string * string,
                       o.1 +:+ " = " +:+ indent_value o.2 +:+ newline)
                      <$> options) +:+
  newline.

(** [config.write]: the default section first, if it has options, then the
    others, each with its options, in their order. *)
Definition write (c : ConfigStore) : string :=
  match c !! "DEFAULT" with
  | Some (o :: d) => write_section "DEFAULT" (o :: d)
  | _ => ""
  end +:+
  String.concat "" ((λ s : string * list (string * string), write_section s.1 s.2)
                      <$> named_sections c).

Global Instance configparser : ConfigParserLib := {|
  optionxform := lower;
  before_set := valid_interpolation;
  parse_ini := read;
  write_ini := λ c, (write c, None);
|}.

Definition templates : path := ("/", ["manim"; "templates"]).

(** Modelled from the spec: [copy_template_files] of [manim.utils.file_ops],
    which is not among the sources, is the external template-copy
    collaborator; here it copies the template's config file and stub into
    the project directory. *)
Definition copy_files (project_dir : path) (template_name : string) (f : FS)
    : exn + FS :=
  match f !! Pathlib.joinpath templates "template.cfg",
        f !! Pathlib.joinpath templates (template_name +:+ ".mtp") with
  | Some cfg, Some stub =>
      inr (<[Pathlib.joinpath project_dir "main.py" := stub]>
             (<[Pathlib.joinpath project_dir "manim.cfg" := cfg]> f))
  | _, _ => inl FileNotFoundError
  end.

(** Modelled from the spec: [add_import_statement] of
    [manim.utils.file_ops], which is not among the sources, is the
    import-injection collaborator; here it puts the import line in front of
    the file's text. *)
Definition add_import (file : path) (f : FS) : exn + FS :=
  match f !! file with
  | Some (File t) => inr (<[file := File ("from manim import *" +:+ newline +:+ t)]> f)
  | Some _ => inl IsADirectoryError
  | None => inl FileNotFoundError
  end.

(** Modelled from the spec: the resolution catalog ([QUALITIES] of
    [manim.constants], which is not among the sources): tiers of a pixel
    height and width, the last of which is never offered. *)
Definition qualities : list (string * quality) :=
  [ ("fourk_quality", mkQuality 2160 3840);
    ("production_quality", mkQuality 1440 2560);
    ("high_quality", mkQuality 1080 1920);
    ("medium_quality", mkQuality 720 1280);
    ("low_quality", mkQuality 480 854);
    ("example_quality", mkQuality 480 854) ].

Global Instance collaborators : Collaborators := {|
  QUALITIES := qualities;
  get_template_names := λ _, ["Axes"; "Default"; "MovingCamera"];
  get_template_path := templates;
  copy_template_files := copy_files;
  add_import_statement := add_import;
|}.

Definition text_of (l : list string) : string :=
  String.concat "" ((λ line, line +:+ newline) <$> l).

(** the config file that comes with the templates *)
Definition template_cfg_text : string :=
  text_of [ "[CLI]";
            "frame_rate = 30";
            "pixel_height = 480";
            "pixel_width = 854";
            "background_color = BLACK";
            "background_opacity = 1";
            "scene_names = Default" ].

Definition template_cfg : ConfigStore :=
  [ ("CLI", [ ("frame_rate", "30"); ("pixel_height", "480");
              ("pixel_width", "854"); ("background_color", "BLACK");
              ("background_opacity", "1"); ("scene_names", "Default") ]) ].

Definition stub : string :=
  "class DefaultTemplate(Scene):" +:+ newline +:+ "    pass" +:+ newline.

(** the installed templates, and nothing in the working directory *)
Definition installed : FS :=
  {[ ("/", ["manim"]) := Dir;
     templates := Dir;
     Pathlib.joinpath templates "template.cfg" := File template_cfg_text;
     Pathlib.joinpath templates "Default.mtp" := File stub ]}.

Definition world (f : FS) (typed : list string) : World := mkWorld f typed [] [] [].

(** the option of the [CLI] section that is read from the config file at [p] *)
Definition cli_option (w : World) (p : path) (k : string) : option string :=
  match config_read p (fs w) with
  | inr c => c !! "CLI" ≫= (.!! k)
  | inl _ => None
  end.

(** a project's config file, with a section of its own next to [CLI] *)
Definition project_cfg_text : string :=
  text_of [ "[CLI]";
            "frame_rate = 30";
            "quality = low_quality";
            "";
            "[logger]";
            "logging_level_info = green" ].

Definition project_cfg : ConfigStore :=
  [ ("CLI", [ ("frame_rate", "30"); ("quality", "low_quality") ]);
    ("logger", [ ("logging_level_info", "green") ]) ].

Definition project_fs : FS :=
  {[ Pathlib.Path "manim.cfg" := File project_cfg_text;
     Pathlib.Path "notes.txt" := File "todo" ]}.

(** a config file without the [CLI] section *)
Definition logger_cfg_text : string :=
  text_of [ "[logger]"; "logging_level_info = green" ].

Definition logger_cfg : ConfigStore :=
  [ ("logger", [ ("logging_level_info", "green") ]) ].

Definition logger_fs : FS := {[ Pathlib.Path "manim.cfg" := File logger_cfg_text ]}.

Definition new_settings : dict :=
  [ ("frame_rate", VInt 60); ("resolution", VPair 1280 720) ].

(** the [CLI] section of the project once [new_settings] are in *)
Definition updated_cli : list (string * string) :=
  [ ("frame_rate", "60"); ("quality", "low_quality");
    ("pixel_width", "1280"); ("pixel_height", "720") ].

(** settings whose resolution is not a pair *)
Definition bad_settings : dict :=
  [ ("frame_rate", VInt 60); ("resolution", VInt 720) ].

(** an installation without any resolution tier *)
Definition empty_catalog : Collaborators := {|
  QUALITIES := [];
  get_template_names := λ _, ["Axes"; "Default"; "MovingCamera"];
  get_template_path := templates;
  copy_template_files := copy_files;
  add_import_statement := add_import;
|}.

End Sample.

(** * Properties *)

(** ** Dictionaries *)

Section Dict.
Context {V : Type}.
Implicit Types (d : list (string * V)) (k : string) (v : V).

Lemma dict_lookup_nil k : ([] : list (string * V)) !! k = None.
Proof. reflexivity. Qed.

Lemma dict_lookup_cons d k k' v :
  ((k', v) :: d) !! k = if decide (k' = k) then Some v else d !! k.
Proof. reflexivity. Qed.

Lemma dict_insert_nil k v : <[k := v]> ([] : list (string * V)) = [(k, v)].
Proof. reflexivity. Qed.

Lemma dict_insert_cons d k k' v v' :
  <[k := v]> ((k', v') :: d)
  = if decide (k' = k) then (k, v) :: d else (k', v') :: <[k := v]> d.
Proof. reflexivity. Qed.

Lemma dict_lookup_insert_eq d k v : <[k := v]> d !! k = Some v.
Proof.
  induction d as [|[k' v'] d IH].
  - rewrite dict_insert_nil, dict_lookup_cons. by rewrite decide_True.
  - rewrite dict_insert_cons. case_decide as Hk.
    + rewrite dict_lookup_cons. by rewrite decide_True.
    + rewrite dict_lookup_cons. by rewrite decide_False.
Qed.

Lemma dict_lookup_insert_ne d k k' v : k ≠ k' → <[k := v]> d !! k' = d !! k'.
Proof.
  intros Hne. induction d as [|[k0 v0] d IH].
  - rewrite dict_insert_nil, dict_lookup_cons. by rewrite decide_False.
  - rewrite dict_insert_cons. case_decide as Hk.
    + subst k0. rewrite !dict_lookup_cons. by rewrite !decide_False.
    + rewrite !dict_lookup_cons. by rewrite IH.
Qed.

Lemma dict_lookup_insert_is_Some d k k' v :
  is_Some (<[k := v]> d !! k') ↔ k = k' ∨ is_Some (d !! k').
Proof.
  destruct (decide (k = k')) as [->|Hne].
  - rewrite dict_lookup_insert_eq. split; eauto.
  - rewrite dict_lookup_insert_ne by done. tauto.
Qed.

(** a later assignment to the same key makes the earlier one forgotten *)
Lemma dict_insert_insert d k v v' : <[k := v']> (<[k := v]> d) = <[k := v']> d.
Proof.
  induction d as [|[k0 v0] d IH].
  - rewrite !dict_insert_nil, dict_insert_cons. by rewrite decide_True.
  - rewrite !dict_insert_cons. case_decide as Hk.
    + rewrite dict_insert_cons. by rewrite decide_True.
    + rewrite dict_insert_cons, decide_False by done. by rewrite IH.
Qed.

(** assigning to a key the value that it has changes nothing *)
Lemma dict_insert_id d k v : d !! k = Some v → <[k := v]> d = d.
Proof.
  induction d as [|[k0 v0] d IH]; [done|].
  rewrite dict_lookup_cons, dict_insert_cons. case_decide as Hk.
  - intros [= ->]. by subst.
  - intros Hd. by rewrite IH.
Qed.

(** assignments to two keys, one of which is there, can be swapped *)
Lemma dict_insert_comm d k1 v1 k2 v2 :
  k1 ≠ k2 → is_Some (d !! k1) →
  <[k1 := v1]> (<[k2 := v2]> d) = <[k2 := v2]> (<[k1 := v1]> d).
Proof.
  intros Hne. induction d as [|[k0 v0] d IH]; [by intros [? ?]|].
  rewrite dict_lookup_cons, !dict_insert_cons.
  destruct (decide (k0 = k1)) as [->|H1].
  - intros _. rewrite decide_False by done.
    rewrite !dict_insert_cons. by rewrite decide_True, decide_False.
  - intros Hd. destruct (decide (k0 = k2)) as [->|H2].
    + rewrite !dict_insert_cons. by rewrite decide_False, decide_True.
    + rewrite !dict_insert_cons. rewrite !decide_False by done. by rewrite IH.
Qed.

End Dict.

(** ** Strings and paths *)

Example replace_first_only :
  Str.replace_1 "DefaultTemplate" "MyScene"
    "class DefaultTemplate(Scene): # DefaultTemplate"
  = "class MyScene(Scene): # DefaultTemplate".
Proof. reflexivity. Qed.

Example path_normal : Pathlib.Path "./sub//demo.txt/" = ("", ["sub"; "demo.txt"]).
Proof. reflexivity. Qed.

Example suffix_hidden : Pathlib.suffix (Pathlib.Path ".py") = "".
Proof. reflexivity. Qed.

Example suffix_last : Pathlib.suffix (Pathlib.Path "a/demo.tar.gz") = ".gz".
Proof. reflexivity. Qed.

Section Strings.
Implicit Types s t old new pre post : string.

Lemma app_nil_l s : "" +:+ s = s.
Proof. reflexivity. Qed.

Lemma app_cons c s t : String c s +:+ t = String c (s +:+ t).
Proof. reflexivity. Qed.

Lemma app_nil_r s : s +:+ "" = s.
Proof. induction s as [|c s IH]; [done|]. by rewrite app_cons, IH. Qed.

Lemma app_assoc s t u : (s +:+ t) +:+ u = s +:+ t +:+ u.
Proof. induction s as [|c s IH]; [done|]. by rewrite !app_cons, IH. Qed.

Lemma prefix_app old post : String.prefix old (old +:+ post) = true.
Proof.
  induction old as [|c old IH]; [by destruct post|].
  rewrite app_cons. simpl. destruct (ascii_dec c c); [done|congruence].
Qed.

Lemma prefix_split old s :
  String.prefix old s = true → ∃ post, s = old +:+ post.
Proof.
  revert s. induction old as [|c old IH]; intros s Hp.
  - by exists s.
  - destruct s as [|d s]; simpl in Hp; [done|].
    destruct (ascii_dec c d) as [->|]; [|done].
    destruct (IH _ Hp) as [post ->]. by exists post.
Qed.

Lemma drop_app old post : Str.drop (String.length old) (old +:+ post) = post.
Proof. induction old; [done|]. by rewrite app_cons. Qed.

Lemma take_drop n s : Str.take n s +:+ Str.drop n s = s.
Proof.
  revert s. induction n as [|n IH]; intros [|c s]; try done.
  simpl. by rewrite app_cons, IH.
Qed.

Lemma length_drop n s : String.length (Str.drop n s) = String.length s - n.
Proof. revert s. induction n as [|n IH]; intros [|c s]; simpl; auto. Qed.

Lemma replace_1_unfold old new s :
  Str.replace_1 old new s =
  if String.prefix old s then new +:+ Str.drop (String.length old) s
  else match s with
       | EmptyString => EmptyString
       | String c s' => String c (Str.replace_1 old new s')
       end.
Proof. by destruct s. Qed.

(** the occurrence that no other one precedes is the one replaced *)
Lemma replace_1_first old new pre post :
  (∀ pre' post', pre +:+ old +:+ post = pre' +:+ old +:+ post' →
                 (String.length pre ≤ String.length pre')%nat) →
  Str.replace_1 old new (pre +:+ old +:+ post) = pre +:+ new +:+ post.
Proof.
  induction pre as [|c pre IH]; intros Hmin.
  - by rewrite !app_nil_l, replace_1_unfold, prefix_app, drop_app.
  - rewrite !app_cons, replace_1_unfold.
    destruct (String.prefix old (String c (pre +:+ old +:+ post))) eqn:Hp.
    + apply prefix_split in Hp as [post' Hp].
      specialize (Hmin "" post'). rewrite !app_cons, app_nil_l in Hmin.
      specialize (Hmin Hp). simpl in Hmin. lia.
    + f_equal. apply IH. intros pre' post' Heq.
      specialize (Hmin (String c pre') post'). rewrite !app_cons in Hmin.
      rewrite Heq in Hmin. specialize (Hmin eq_refl). simpl in Hmin. lia.
Qed.

Lemma replace_1_absent old new s :
  (∀ pre post, s ≠ pre +:+ old +:+ post) →
  Str.replace_1 old new s = s.
Proof.
  induction s as [|c s IH]; intros Hno.
  - rewrite replace_1_unfold. destruct (String.prefix old "") eqn:Hp; [|done].
    apply prefix_split in Hp as [post Hp]. by destruct (Hno "" post).
  - rewrite replace_1_unfold.
    destruct (String.prefix old (String c s)) eqn:Hp.
    + apply prefix_split in Hp as [post Hp]. by destruct (Hno "" post).
    + f_equal. apply IH. intros pre post ->. by apply (Hno (String c pre) post).
Qed.

Lemma rfind_dot_spec s i :
  Str.rfind_dot s = Some i →
  i < String.length s ∧ ∃ rest, Str.drop i s = String "." rest.
Proof.
  revert i. induction s as [|c s IH]; intros i; [done|].
  simpl. destruct (Str.rfind_dot s) as [j|].
  - intros [= <-]. destruct (IH j eq_refl) as [? ?]. split; [lia|done].
  - case_decide as Hc; [|done]. intros [= <-]. subst c.
    split; [lia|]. by exists s.
Qed.

(** the suffix of a path is empty, or starts with a dot and ends the name *)
Lemma suffix_shape (p : path) :
  Pathlib.suffix p = "" ∨
  ∃ rest, Pathlib.suffix p = String "." rest ∧
    Str.take (String.length (Pathlib.name p) - String.length (Pathlib.suffix p))
      (Pathlib.name p) +:+ Pathlib.suffix p = Pathlib.name p.
Proof.
  unfold Pathlib.suffix. set (n := Pathlib.name p).
  destruct (Str.rfind_dot n) as [i|] eqn:Hi; [|by left].
  case_decide; [|by left]. right.
  destruct (rfind_dot_spec _ _ Hi) as [Hlt [rest Hrest]].
  exists rest. split; [done|].
  rewrite length_drop.
  replace (String.length n - (String.length n - i)) with i by lia.
  apply take_drop.
Qed.

(** [with_suffix] with the old suffix kept puts the addition after the name *)
Lemma with_suffix_py (p : path) :
  Pathlib.name p ≠ "" →
  Pathlib.with_suffix p (Pathlib.suffix p +:+ ".py")
  = inr (Pathlib.with_name p (Pathlib.name p +:+ ".py")).
Proof.
  intros Hname. unfold Pathlib.with_suffix.
  destruct (suffix_shape p) as [Hs|[rest [Hs Hn]]].
  - rewrite Hs, app_nil_l.
    case_decide as Hbad; [by destruct Hbad as [[_ ?]|?]|].
    rewrite decide_False by done. by rewrite decide_True.
  - rewrite decide_False; last first.
    { rewrite Hs, app_cons. intros [[_ Hp]|Hdot].
      - simpl in Hp. by destruct rest.
      - injection Hdot as Hdot. by destruct rest. }
    rewrite decide_False by done.
    rewrite decide_False by (by rewrite Hs).
    by rewrite <- app_assoc, Hn.
Qed.

End Strings.

(** C9. The stub is rendered by replacing the first occurrence of
    [template_name + "Template"] with the scene name: what stands before and
    after that occurrence, later occurrences included, is kept; a stub
    without an occurrence is returned as it is, and nothing is raised (the
    result is a plain string). *)
Theorem render_replaces_first_occurrence (stub template_name scene_name : string) :
  let placeholder := template_name +:+ "Template" in
  (∀ pre post,
     stub = pre +:+ placeholder +:+ post →
     (∀ pre' post', stub = pre' +:+ placeholder +:+ post' →
                    (String.length pre ≤ String.length pre')%nat) →
     Str.replace_1 placeholder scene_name stub = pre +:+ scene_name +:+ post) ∧
  ((∀ pre post, stub ≠ pre +:+ placeholder +:+ post) →
     Str.replace_1 placeholder scene_name stub = stub).
Proof.
  intros placeholder. split.
  - intros pre post -> Hmin. by apply replace_1_first.
  - apply replace_1_absent.
Qed.

Lemma render_replaces_first_occurrence_witness :
  Str.replace_1 ("Default" +:+ "Template") "MyScene"
    "class DefaultTemplate(Scene): # DefaultTemplate"
  = "class " +:+ "MyScene" +:+ "(Scene): # DefaultTemplate"
  ∧ Str.replace_1 ("Axes" +:+ "Template") "MyScene" "pass" = "pass".
Proof.
  split.
  - apply (proj1 (render_replaces_first_occurrence
                    "class DefaultTemplate(Scene): # DefaultTemplate"
                    "Default" "MyScene") "class " "(Scene): # DefaultTemplate").
    + reflexivity.
    + intros pre' post' Heq.
      destruct pre' as [|c0 [|c1 [|c2 [|c3 [|c4 [|c5 pre']]]]]];
        try (vm_compute in Heq; congruence).
      simpl. lia.
  - apply (proj2 (render_replaces_first_occurrence "pass" "Axes" "MyScene")).
    intros pre post Heq.
    do 5 (destruct pre as [|? pre]; [vm_compute in Heq; congruence|]).
    vm_compute in Heq. congruence.
Defined.

(** C10. An explicit file name whose suffix is not [".py"] gets [".py"] put
    after its whole name, the old suffix staying in place; a name that
    already ends in [".py"] is used as it is. *)
Theorem scene_target_appends_py (file_name : string) :
  let p := Pathlib.Path file_name in
  Pathlib.name p ≠ "" →
  target_of file_name =
    inr (if decide (Pathlib.suffix p = ".py") then p
         else Pathlib.with_name p (Pathlib.name p +:+ ".py")).
Proof.
  intros p Hname. unfold target_of. fold p.
  destruct (decide (Pathlib.suffix p = ".py")) as [Hs|Hs].
  - by rewrite decide_False by (by intros ?).
  - rewrite decide_True by done. by apply with_suffix_py.
Qed.

Lemma scene_target_appends_py_witness :
  target_of "demo.txt" = inr ("", ["demo.txt.py"]).
Proof. apply (scene_target_appends_py "demo.txt"). by vm_compute. Defined.

Example target_without_suffix : target_of "demo" = inr ("", ["demo.py"]).
Proof. reflexivity. Qed.

Example target_with_py : target_of "demo.py" = inr ("", ["demo.py"]).
Proof. reflexivity. Qed.

Example target_in_directory : target_of "scenes/intro.v2" = inr ("", ["scenes"; "intro.v2.py"]).
Proof. reflexivity. Qed.

Example target_without_name : target_of "." = inl ValueError.
Proof. reflexivity. Qed.

(** ** The config writer *)

Section ConfigWriter.
Context `{ConfigParserLib}.
Implicit Types (cfg items : dict) (sec : list (string * string)) (c : ConfigStore).
Implicit Types (p : path) (w : World).

Lemma set_option_inr sec key v sec' :
  set_option sec key v = inr sec' → sec' = <[optionxform key := v]> sec.
Proof. unfold set_option. repeat case_match; naive_solver. Qed.

(** whether an assignment is accepted does not depend on the section *)
Lemma set_option_any sec key v sec' t :
  set_option sec key v = inr sec' →
  set_option t key v = inr (<[optionxform key := v]> t).
Proof. unfold set_option. repeat case_match; naive_solver. Qed.

Lemma set_option_cases key v :
  (∀ t, set_option t key v = inr (<[optionxform key := v]> t)) ∨
  (∀ t, set_option t key v = inl ValueError).
Proof.
  unfold set_option. case_decide; [by left|].
  destruct (before_set v); [by left|by right].
Qed.

Lemma mentions_cons key value rest k :
  mentions ((key, value) :: rest) k ↔ k ∈ assigns key ∨ mentions rest k.
Proof.
  unfold mentions. rewrite fmap_cons. split.
  - intros (key' & [->|Hin]%elem_of_cons & Has); [by left|].
    right. by exists key'.
  - intros [Has|(key' & Hin & Has)].
    + exists key. split; [|done]. apply elem_of_cons. by left.
    + exists key'. split; [|done]. apply elem_of_cons. by right.
Qed.

Lemma mentions_dec items k : Decision (mentions items k).
Proof.
  destruct (decide (Exists (λ key, k ∈ assigns key) items.*1)) as [Hyes|Hno];
    [left|right].
  - apply Exists_exists in Hyes as (key & ? & ?). by exists key.
  - intros (key & ? & ?). apply Hno, Exists_exists. by exists key.
Qed.

Lemma assigns_resolution k :
  k ∈ assigns "resolution" ↔ k = optionxform "pixel_width" ∨ k = optionxform "pixel_height".
Proof.
  unfold assigns. rewrite decide_True by done.
  rewrite !elem_of_cons, elem_of_nil. tauto.
Qed.

Lemma assigns_plain key k :
  key ≠ "resolution" → k ∈ assigns key ↔ k = optionxform key.
Proof.
  intros Hkey. unfold assigns. rewrite decide_False by done.
  rewrite elem_of_cons, elem_of_nil. tauto.
Qed.

Lemma update_items_cons_inr key value rest sec sec' :
  update_items ((key, value) :: rest) sec = inr sec' →
  ∃ mid, update_items rest mid = inr sec' ∧
         (∀ k, k ∉ assigns key → mid !! k = sec !! k).
Proof.
  cbn [update_items]. unfold assigns. case_decide as Hkey.
  - unfold mbind, exn_bind.
    destruct (getitem value 0) as [|v0]; [done|].
    destruct (set_option sec _ _) as [|c1] eqn:E1; [done|].
    destruct (getitem value 1) as [|v1]; [done|].
    destruct (set_option c1 _ _) as [|c2] eqn:E2; [done|].
    intros Hrest. exists c2. split; [done|]. intros k Hk.
    apply set_option_inr in E1, E2. subst.
    apply not_elem_of_cons in Hk as [Hw Hk].
    apply not_elem_of_cons in Hk as [Hh _].
    by rewrite !dict_lookup_insert_ne.
  - unfold mbind, exn_bind.
    destruct (set_option sec _ _) as [|c1] eqn:E1; [done|].
    intros Hrest. exists c1. split; [done|]. intros k Hk.
    apply set_option_inr in E1. subst.
    apply not_elem_of_cons in Hk as [Hk _].
    by rewrite dict_lookup_insert_ne.
Qed.

Lemma update_items_frame items sec sec' k :
  update_items items sec = inr sec' →
  ¬ mentions items k →
  sec' !! k = sec !! k.
Proof.
  revert sec. induction items as [|[key value] rest IH]; intros sec Hrun Hk.
  - by injection Hrun as <-.
  - apply update_items_cons_inr in Hrun as (mid & Hrest & Hmid).
    rewrite mentions_cons in Hk.
    rewrite (IH mid Hrest) by tauto. apply Hmid. tauto.
Qed.

Lemma update_items_cons_names key value rest sec sec' :
  update_items ((key, value) :: rest) sec = inr sec' →
  ∃ mid, update_items rest mid = inr sec' ∧
         ∀ k, is_Some (mid !! k) ↔ is_Some (sec !! k) ∨ k ∈ assigns key.
Proof.
  cbn [update_items]. unfold assigns. case_decide as Hkey.
  - unfold mbind, exn_bind.
    destruct (getitem value 0) as [|v0]; [done|].
    destruct (set_option sec _ _) as [|c1] eqn:E1; [done|].
    destruct (getitem value 1) as [|v1]; [done|].
    destruct (set_option c1 _ _) as [|c2] eqn:E2; [done|].
    intros Hrest. exists c2. split; [done|]. intros k.
    apply set_option_inr in E1, E2. subst.
    rewrite !dict_lookup_insert_is_Some, !elem_of_cons, elem_of_nil.
    rewrite !(eq_comm k).
    destruct (decide (optionxform "pixel_height" = k)),
             (decide (optionxform "pixel_width" = k)); tauto.
  - unfold mbind, exn_bind.
    destruct (set_option sec _ _) as [|c1] eqn:E1; [done|].
    intros Hrest. exists c1. split; [done|]. intros k.
    apply set_option_inr in E1. subst.
    rewrite dict_lookup_insert_is_Some, !elem_of_cons, elem_of_nil.
    rewrite !(eq_comm k). destruct (decide (optionxform key = k)); tauto.
Qed.

Lemma update_items_names items sec sec' k :
  update_items items sec = inr sec' →
  is_Some (sec' !! k) ↔ is_Some (sec !! k) ∨ mentions items k.
Proof.
  revert sec. induction items as [|[key value] rest IH]; intros sec Hrun.
  - injection Hrun as <-. split; [by left|]. intros [?|(key & Hin & _)]; [done|].
    by apply elem_of_nil in Hin.
  - apply update_items_cons_names in Hrun as (mid & Hrest & Hmid).
    rewrite (IH mid Hrest), Hmid, mentions_cons. tauto.
Qed.

(** an assignment to an option that is there, before a loop that assigns
    the option anyway, is forgotten *)
Lemma update_items_override items sec k v :
  mentions items k → is_Some (sec !! k) →
  update_items items (<[k := v]> sec) = update_items items sec.
Proof.
  revert sec. induction items as [|[key value] rest IH]; intros sec Hm Hk.
  { destruct Hm as (key & Hin & _). by apply elem_of_nil in Hin. }
  apply mentions_cons in Hm. cbn [update_items]. case_decide as Hkey.
  - subst key. rewrite assigns_resolution in Hm.
    unfold mbind, exn_bind. destruct (getitem value 0) as [|v0]; [done|].
    destruct (set_option_cases "pixel_width" (str v0)) as [Hw|Hw];
      rewrite !Hw; [|done].
    destruct (getitem value 1) as [|v1]; [done|].
    destruct (set_option_cases "pixel_height" (str v1)) as [Hh|Hh];
      rewrite !Hh; [|done].
    destruct (decide (k = optionxform "pixel_width")) as [->|Hkw].
    { by rewrite dict_insert_insert. }
    rewrite <- (dict_insert_comm sec k v) by done.
    destruct (decide (k = optionxform "pixel_height")) as [->|Hkh].
    { by rewrite dict_insert_insert. }
    rewrite <- (dict_insert_comm _ k v)
      by (try done; apply dict_lookup_insert_is_Some; by right).
    apply IH; [tauto|]. rewrite !dict_lookup_insert_is_Some. tauto.
  - rewrite (assigns_plain _ _ Hkey) in Hm.
    unfold mbind, exn_bind.
    destruct (set_option_cases key (str value)) as [Hs|Hs]; rewrite !Hs; [|done].
    destruct (decide (k = optionxform key)) as [->|Hko].
    { by rewrite dict_insert_insert. }
    rewrite <- (dict_insert_comm sec k v) by done.
    apply IH; [tauto|]. rewrite dict_lookup_insert_is_Some. tauto.
Qed.

(** an assignment to an option that is there, before a loop that does not
    assign the option, can as well come after it *)
Lemma update_items_commute items sec sec' k v :
  ¬ mentions items k → is_Some (sec !! k) →
  update_items items sec = inr sec' →
  update_items items (<[k := v]> sec) = inr (<[k := v]> sec').
Proof.
  revert sec. induction items as [|[key value] rest IH]; intros sec Hm Hk.
  { cbn. by intros [= <-]. }
  rewrite mentions_cons in Hm. cbn [update_items]. case_decide as Hkey.
  - subst key. rewrite assigns_resolution in Hm.
    unfold mbind, exn_bind. destruct (getitem value 0) as [|v0]; [done|].
    destruct (set_option_cases "pixel_width" (str v0)) as [Hw|Hw];
      rewrite !Hw; [|done].
    destruct (getitem value 1) as [|v1]; [done|].
    destruct (set_option_cases "pixel_height" (str v1)) as [Hh|Hh];
      rewrite !Hh; [|done].
    rewrite <- (dict_insert_comm sec k v) by (try done; intros ->; tauto).
    rewrite <- (dict_insert_comm _ k v)
      by (try (intros ->; tauto); apply dict_lookup_insert_is_Some; by right).
    apply IH; [tauto|]. rewrite !dict_lookup_insert_is_Some. tauto.
  - rewrite (assigns_plain _ _ Hkey) in Hm.
    unfold mbind, exn_bind.
    destruct (set_option_cases key (str value)) as [Hs|Hs]; rewrite !Hs; [|done].
    rewrite <- (dict_insert_comm sec k v) by (try done; intros ->; tauto).
    apply IH; [tauto|]. rewrite dict_lookup_insert_is_Some. tauto.
Qed.

(** an assignment that the loop makes anyway, or that gives an option the
    value that the loop leaves it with, does not change what the loop
    leaves *)
Lemma update_items_absorb items sec sec' k v :
  update_items items sec = inr sec' →
  is_Some (sec !! k) →
  mentions items k ∨ sec' !! k = Some v →
  update_items items (<[k := v]> sec) = inr sec'.
Proof.
  intros Hrun Hk Hcase. destruct (mentions_dec items k) as [Hm|Hm].
  - by rewrite update_items_override.
  - destruct Hcase as [?|Hv]; [done|].
    rewrite (update_items_commute _ _ _ _ _ Hm Hk Hrun).
    by rewrite dict_insert_id.
Qed.

(** running the loop on what it has left changes nothing *)
Lemma update_items_twice items sec sec' :
  update_items items sec = inr sec' → update_items items sec' = inr sec'.
Proof.
  revert sec. induction items as [|[key value] rest IH]; intros sec Hrun; [done|].
  revert Hrun. cbn [update_items]. case_decide as Hkey.
  - unfold mbind, exn_bind. destruct (getitem value 0) as [|v0]; [done|].
    destruct (set_option_cases "pixel_width" (str v0)) as [Hw|Hw];
      rewrite !Hw; [|done].
    destruct (getitem value 1) as [|v1]; [done|].
    destruct (set_option_cases "pixel_height" (str v1)) as [Hh|Hh];
      rewrite !Hh; [|done].
    intros Hrest. pose proof (IH _ Hrest) as Hfix.
    assert (Hh' : is_Some (sec' !! optionxform "pixel_height")).
    { apply (update_items_names _ _ _ _ Hrest). left.
      rewrite dict_lookup_insert_is_Some. by left. }
    assert (Hw' : is_Some (sec' !! optionxform "pixel_width")).
    { apply (update_items_names _ _ _ _ Hrest). left.
      rewrite !dict_lookup_insert_is_Some. right. by left. }
    assert (Hlast : mentions rest (optionxform "pixel_height") ∨
                    sec' !! optionxform "pixel_height" = Some (str v1)).
    { destruct (mentions_dec rest (optionxform "pixel_height")) as [?|Hm];
        [by left|right].
      rewrite (update_items_frame _ _ _ _ Hrest Hm).
      apply dict_lookup_insert_eq. }
    destruct (decide (optionxform "pixel_width" = optionxform "pixel_height"))
      as [Heq|Hne].
    { rewrite Heq, dict_insert_insert. by apply update_items_absorb. }
    apply update_items_absorb.
    + apply update_items_absorb; [done..|].
      destruct (mentions_dec rest (optionxform "pixel_width")) as [?|Hm];
        [by left|right].
      rewrite (update_items_frame _ _ _ _ Hrest Hm).
      rewrite dict_lookup_insert_ne by done. apply dict_lookup_insert_eq.
    + rewrite dict_lookup_insert_is_Some. by right.
    + done.
  - unfold mbind, exn_bind.
    destruct (set_option_cases key (str value)) as [Hs|Hs]; rewrite !Hs; [|done].
    intros Hrest. pose proof (IH _ Hrest) as Hfix.
    apply update_items_absorb; [done|..].
    + apply (update_items_names _ _ _ _ Hrest). left.
      rewrite dict_lookup_insert_is_Some. by left.
    + destruct (mentions_dec rest (optionxform key)) as [?|Hm]; [by left|right].
      rewrite (update_items_frame _ _ _ _ Hrest Hm).
      apply dict_lookup_insert_eq.
Qed.

Lemma update_cfg_unfold cfg p w :
  update_cfg cfg p w =
  match config_read p (fs w) with
  | inl e => (inl e, w)
  | inr c =>
      match c !! "CLI" with
      | None => (inl (KeyError "CLI"), w)
      | Some sec =>
          match update_items cfg sec with
          | inl e => (inl e, w)
          | inr sec' => config_write p (<["CLI" := sec']> c) w
          end
      end
  end.
Proof.
  unfold update_cfg, mbind, M_bind, get_fs, lift, raise.
  destruct (config_read p (fs w)) as [e|c]; [done|].
  destruct (c !! "CLI") as [sec|]; [|done].
  by destruct (update_items cfg sec).
Qed.

Lemma stat_insert p n f : stat (<[p := n]> f) p = Some n.
Proof. unfold stat. by rewrite lookup_insert_eq. Qed.

(** a store with a [CLI] section comes from a file, which can be opened *)
Lemma open_after_read p w c sec :
  config_read p (fs w) = inr c → c !! "CLI" = Some sec →
  open_for_writing true p (fs w) = inr "".
Proof.
  unfold config_read, open_for_writing. intros Hread Hsec.
  destruct (stat (fs w) p) as [[]|]; try done.
  all: by injection Hread as <-.
Qed.

Lemma config_write_after_read p w c sec c' :
  config_read p (fs w) = inr c → c !! "CLI" = Some sec →
  config_write p c' w =
  (match (write_ini c').2 with Some e => inl e | None => inr tt end,
   set_fs (<[p := File (write_ini c').1]> (fs w)) w).
Proof.
  intros Hread Hsec. unfold config_write.
  rewrite (open_after_read _ _ _ _ Hread Hsec). cbn.
  by destruct (write_ini c').2.
Qed.

Lemma config_read_written p f c :
  reads_back c → config_read p (<[p := File (write_ini c).1]> f) = inr c.
Proof. intros [_ Hparse]. unfold config_read. by rewrite stat_insert. Qed.

(** what a call leaves in the store, whether it returns or raises *)
Lemma update_cfg_store cfg p w c :
  config_read p (fs w) = inr c →
  written_reads_back cfg c →
  ∃ c', config_read p (fs (update_cfg cfg p w).2) = inr c' ∧
    (∀ S, S ≠ "CLI" → c' !! S = c !! S) ∧
    (∀ sec, c !! "CLI" = Some sec →
       ∃ sec', c' !! "CLI" = Some sec' ∧
         ∀ k, ¬ mentions cfg k → sec' !! k = sec !! k).
Proof.
  intros Hread Hback. rewrite update_cfg_unfold, Hread.
  destruct (c !! "CLI") as [sec|] eqn:Hsec; [|by exists c; eauto].
  destruct (update_items cfg sec) as [e|sec'] eqn:Hrun.
  { exists c. split; [done|]. split; [done|]. intros ? [= <-]. eauto. }
  rewrite (config_write_after_read _ _ _ _ _ Hread Hsec). cbn.
  exists (<["CLI" := sec']> c).
  split; [apply config_read_written; by apply (Hback sec)|]. split.
  - intros S HS. by rewrite dict_lookup_insert_ne.
  - intros ? [= <-]. exists sec'. rewrite dict_lookup_insert_eq. split; [done|].
    intros k Hk. by apply (update_items_frame cfg).
Qed.

Lemma set_fs_set_fs f g w : set_fs f (set_fs g w) = set_fs f w.
Proof. done. Qed.

Lemma update_cfg_twice cfg p w c :
  config_read p (fs w) = inr c →
  written_reads_back cfg c →
  update_cfg cfg p (update_cfg cfg p w).2 = update_cfg cfg p w.
Proof.
  intros Hread Hback. rewrite (update_cfg_unfold cfg p w), Hread.
  destruct (c !! "CLI") as [sec|] eqn:Hsec; last first.
  { cbn. by rewrite update_cfg_unfold, Hread, Hsec. }
  destruct (update_items cfg sec) as [e|sec'] eqn:Hrun.
  { cbn. by rewrite update_cfg_unfold, Hread, Hsec, Hrun. }
  pose proof (Hback sec sec' Hsec Hrun) as Hc'.
  rewrite (config_write_after_read _ _ _ _ _ Hread Hsec). cbn.
  rewrite update_cfg_unfold. cbn.
  rewrite (config_read_written _ _ _ Hc'), dict_lookup_insert_eq.
  rewrite (update_items_twice _ _ _ Hrun).
  rewrite (config_write_after_read p _ (<["CLI" := sec']> c) sec').
  - cbn. by rewrite dict_insert_insert, insert_insert_eq.
  - cbn. by apply config_read_written.
  - by rewrite dict_lookup_insert_eq.
Qed.

(** C6. [update_cfg] needs the [CLI] section in the store at the path:
    without it, it raises (the [KeyError] of [config["CLI"]]) and the file
    system is as before, nothing having been written. *)
Theorem update_cfg_missing_section cfg p w c :
  config_read p (fs w) = inr c →
  c !! "CLI" = None →
  update_cfg cfg p w = (inl (KeyError "CLI"), w).
Proof. intros Hread Hsec. by rewrite update_cfg_unfold, Hread, Hsec. Qed.



(** With incoming keys that the store keeps as they are (lower-case names,
    as those of [CFG_DEFAULTS]), an option is mentioned only by its own key
    or, for the two pixel options, by [resolution]. *)
Lemma mentions_plain_keys cfg k :
  (∀ key, key ∈ cfg.*1 → optionxform key = key) →
  optionxform "pixel_width" = "pixel_width" →
  optionxform "pixel_height" = "pixel_height" →
  k ∉ cfg.*1 →
  ("resolution" ∈ cfg.*1 → k ≠ "pixel_width" ∧ k ≠ "pixel_height") →
  ¬ mentions cfg k.
Proof.
  intros Hplain Hw Hh Hk Hres (key & Hin & Has). unfold assigns in Has.
  case_decide as Hkey.
  - subst key. destruct (Hres Hin) as [? ?]. rewrite Hw, Hh in Has.
    apply elem_of_cons in Has as [?|Has]; [done|].
    by apply elem_of_cons in Has as [?|Has%elem_of_nil].
  - apply elem_of_cons in Has as [->|Has%elem_of_nil]; [|done].
    by rewrite Hplain in Hk.
Qed.

End ConfigWriter.

Lemma update_cfg_missing_section_witness :
  update_cfg Sample.new_settings (Pathlib.Path "manim.cfg")
    (Sample.world Sample.logger_fs [])
  = (inl (KeyError "CLI"), Sample.world Sample.logger_fs []).
Proof.
  apply (update_cfg_missing_section (H := Sample.configparser)
           Sample.new_settings (Pathlib.Path "manim.cfg")
           (Sample.world Sample.logger_fs []) Sample.logger_cfg).
  - reflexivity.
  - reflexivity.
Defined.

Lemma quality_not_mentioned :
  ¬ mentions Sample.new_settings "quality".
Proof.
  intros (key & Hin & Has). cbn in Hin.
  apply elem_of_cons in Hin as [->|Hin].
  - vm_compute in Has. apply elem_of_cons in Has as [?|?%elem_of_nil]; done.
  - apply elem_of_cons in Hin as [->|?%elem_of_nil]; [|done].
    vm_compute in Has. apply elem_of_cons in Has as [?|Has]; [done|].
    apply elem_of_cons in Has as [?|?%elem_of_nil]; done.
Qed.

Lemma new_settings_read_back sec' :
  update_items Sample.new_settings
    [("frame_rate", "30"); ("quality", "low_quality")] = inr sec' →
  reads_back (<["CLI" := sec']> Sample.project_cfg).
Proof.
  intros Hrun.
  assert (Hsec' : sec' = Sample.updated_cli).
  { assert (Heval : update_items Sample.new_settings
                      [("frame_rate", "30"); ("quality", "low_quality")]
                    = inr Sample.updated_cli) by reflexivity.
    rewrite Heval in Hrun. by injection Hrun. }
  subst sec'. split; reflexivity.
Qed.


(** An incoming key that holds a delimiter is written as it is, and the
    text is then read differently: with the key ["frame_rate=1"] the call
    returns, and the file it leaves has the option [frame_rate] twice, so
    that no option of the store, mentioned or not, can be read any more. *)
Lemma update_cfg_loses_unmentioned :
  let p := Pathlib.Path "manim.cfg" in
  let w := Sample.world Sample.project_fs [] in
  let cfg := [("frame_rate=1", VStr "x")] in
  let r := update_cfg cfg p w in
  config_read p (fs w) = inr Sample.project_cfg ∧
  Sample.project_cfg !! "CLI" ≫= (.!! "quality") = Some "low_quality" ∧
  ¬ mentions cfg "quality" ∧
  r.1 = inr tt ∧
  config_read p (fs r.2) = inl DuplicateOptionError.
Proof.
  intros p w cfg r. split; [reflexivity|]. split; [reflexivity|]. split.
  - intros (key & Hin & Has). cbn in Hin.
    apply elem_of_cons in Hin as [->|?%elem_of_nil]; [|done].
    vm_compute in Has. apply elem_of_cons in Has as [?|?%elem_of_nil]; done.
  - split; reflexivity.
Qed.


(** With the key ["a=b"] both calls return, but the first leaves a file
    that reads as the old store with the option [a] added, and the second
    a file with the option [a] twice, which cannot be read. *)
Lemma update_cfg_second_call_differs :
  let p := Pathlib.Path "manim.cfg" in
  let w := Sample.world Sample.project_fs [] in
  let cfg := [("a=b", VStr "x")] in
  let once := update_cfg cfg p w in
  let twice := update_cfg cfg p once.2 in
  config_read p (fs w) = inr Sample.project_cfg ∧
  once.1 = inr tt ∧
  config_read p (fs once.2)
  = inr (<["CLI" := [("frame_rate", "30"); ("quality", "low_quality");
                      ("a", "b = x")]]> Sample.project_cfg) ∧
  twice.1 = inr tt ∧
  config_read p (fs twice.2) = inl DuplicateOptionError ∧
  twice ≠ once.
Proof.
  intros p w cfg once twice.
  assert (Honce : config_read p (fs once.2)
    = inr (<["CLI" := [("frame_rate", "30"); ("quality", "low_quality");
                        ("a", "b = x")]]> Sample.project_cfg)) by reflexivity.
  assert (Htwice : config_read p (fs twice.2) = inl DuplicateOptionError)
    by reflexivity.
  split; [reflexivity|]. split; [reflexivity|]. split; [exact Honce|].
  split; [reflexivity|]. split; [exact Htwice|].
  intros Heq. rewrite Heq, Honce in Htwice. discriminate Htwice.
Qed.

Example update_cfg_sample :
  let p := Pathlib.Path "manim.cfg" in
  let r := update_cfg Sample.new_settings p (Sample.world Sample.project_fs []) in
  r.1 = inr tt ∧
  Sample.cli_option r.2 p "frame_rate" = Some "60" ∧
  Sample.cli_option r.2 p "quality" = Some "low_quality" ∧
  Sample.cli_option r.2 p "pixel_width" = Some "1280" ∧
  Sample.cli_option r.2 p "pixel_height" = Some "720".
Proof. repeat split; reflexivity. Qed.

(** ** Running a computation *)

Lemma bind_run {A B} (m : M A) (k : A → M B) (w : World) :
  (m ≫= k) w =
  match m w with
  | (inr a, w') => k a w'
  | (inl e, w') => (inl e, w')
  end.
Proof. reflexivity. Qed.

Lemma bind_inr {A B} (m : M A) (k : A → M B) (w w' : World) (a : A) :
  m w = (inr a, w') → (m ≫= k) w = k a w'.
Proof. intros Hm. by rewrite bind_run, Hm. Qed.

(** closed statements: a conjunction of equations that hold by evaluation *)
Ltac evaluate := repeat (split; [reflexivity|]); reflexivity.

(** ** The scene inserter *)

Section SceneInserter.
Context `{Collaborators}.
Implicit Types (p target : path) (w : World).

Lemma is_file_run p w :
  is_file p w = (inr (bool_decide (is_Some (stat (fs w) p ≫= file_text))), w).
Proof. reflexivity. Qed.

(** what the file system holds at a path is what the path names *)
Lemma stat_present f p n : f !! p = Some n → stat f p = Some n.
Proof. unfold stat. by intros ->. Qed.

Lemma stat_file f p old : f !! p ≫= file_text = Some old → stat f p = Some (File old).
Proof.
  intros Hold. destruct (f !! p) as [[|t]|] eqn:Hn; try done.
  cbn in Hold. injection Hold as ->. by apply stat_present.
Qed.

(** without a file name, a missing [main.py] is created by the append *)
Lemma insert_scene_default_creates text w :
  fs w !! Pathlib.Path "main.py" = None →
  insert_scene None text w
  = (inr tt, set_fs (<[Pathlib.Path "main.py" := File (separator +:+ text)]> (fs w)) w).
Proof.
  intros Habsent. unfold insert_scene, append_text, open_for_writing, stat.
  by rewrite Habsent.
Qed.


End SceneInserter.


(** The target [nodir/demo.py] in a working directory without [nodir]:
    there is nothing at the target, and the command fails with
    [FileNotFoundError]; nothing is created and [add_import_statement] is
    not called. *)
Lemma insert_scene_missing_directory :
  let w := Sample.world Sample.project_fs [] in
  let r := insert_scene (Some "nodir/demo") "class A(Scene): pass" w in
  target_of "nodir/demo" = inr (Pathlib.Path "nodir/demo.py") ∧
  stat (fs w) (Pathlib.Path "nodir/demo.py") = None ∧
  r = (inl FileNotFoundError, w).
Proof. split; [reflexivity|]. split; reflexivity. Qed.

Example insert_scene_appends :
  let r := insert_scene (Some "notes.txt.py") "class A(Scene): pass"
             (Sample.world {[ Pathlib.Path "notes.txt.py" := File "import os" ]} []) in
  r.1 = inr tt ∧ imported r.2 = [] ∧
  fs r.2 !! Pathlib.Path "notes.txt.py"
  = Some (File ("import os" +:+ separator +:+ "class A(Scene): pass")).
Proof. split; [reflexivity|]. split; reflexivity. Qed.

Example insert_scene_creates :
  let r := insert_scene (Some "demo") "class A(Scene): pass" (Sample.world ∅ []) in
  r.1 = inr tt ∧ imported r.2 = [Pathlib.Path "demo.py"] ∧
  fs r.2 !! Pathlib.Path "demo.py"
  = Some (File ("from manim import *" +:+ Sample.newline +:+ separator
                +:+ "class A(Scene): pass")).
Proof. split; [reflexivity|]. split; reflexivity. Qed.

(** C2. Without a file name the target is [main.py]; the code's comment says
    that a missing [main.py] stops the command, yet the append creates it:
    here [main.py] is absent before the call, the call returns, and
    [main.py] holds the separator and the rendered stub afterwards. *)
Theorem scene_creates_missing_default_target :
  let w := Sample.world Sample.installed [""] in
  let r := scene "MyScene" None w in
  fs w !! Pathlib.Path "main.py" = None ∧
  r.1 = inr tt ∧
  fs r.2 !! Pathlib.Path "main.py"
  = Some (File (separator +:+ "class MyScene(Scene):" +:+ Sample.newline
                +:+ "    pass" +:+ Sample.newline)).
Proof. split; [reflexivity|]. split; reflexivity. Qed.

(** ** The project initializer *)

Section Quiet.
Context `{Builtins}.

Lemma typed_only_refl w : typed_only w w.
Proof. by destruct w. Qed.

Lemma typed_only_trans w1 w2 w3 :
  typed_only w1 w2 → typed_only w2 w3 → typed_only w1 w3.
Proof. unfold typed_only. intros H12 H23. rewrite H23, H12. done. Qed.

Lemma typed_only_same w w' :
  typed_only w w' →
  fs w' = fs w ∧ console w' = console w ∧ copied w' = copied w ∧ imported w' = imported w.
Proof. intros ->. done. Qed.

Lemma quiet_ret {A} (a : A) : quiet (mret a).
Proof. intros w. apply typed_only_refl. Qed.

Lemma quiet_raise {A} (e : exn) : quiet (raise (A := A) e).
Proof. intros w. apply typed_only_refl. Qed.

Lemma quiet_bind {A B} (m : M A) (k : A → M B) :
  quiet m → (∀ a, quiet (k a)) → quiet (m ≫= k).
Proof.
  intros Hm Hk w. rewrite bind_run. specialize (Hm w).
  destruct (m w) as [[e|a] w1]; [done|].
  eapply typed_only_trans; [exact Hm|apply Hk].
Qed.

Lemma quiet_get_fs : quiet get_fs.
Proof. intros w. apply typed_only_refl. Qed.

Lemma quiet_click_prompt {A} (conv : string → converted A) (dflt : converted A) :
  quiet (click_prompt conv dflt).
Proof.
  intros w. unfold click_prompt.
  by destruct (prompt_loop conv dflt (stdin w)) as [r rest].
Qed.

Lemma quiet_click_confirm d abort : quiet (click_confirm d abort).
Proof.
  intros w. unfold click_confirm.
  destruct (confirm_loop d (stdin w)) as [[e|rv] rest]; [done|].
  by destruct (abort && negb rv).
Qed.

Lemma quiet_prompt_default v : quiet (prompt_default v).
Proof. destruct v; apply quiet_click_prompt. Qed.

End Quiet.

Create HintDb quiet.
#[global] Hint Resolve quiet_ret quiet_raise quiet_get_fs quiet_click_prompt
  quiet_click_confirm quiet_prompt_default : quiet.
#[global] Hint Extern 2 (quiet (_ ≫= _)) => apply quiet_bind; [|intros ?] : quiet.

Lemma elem_of_removelast {A} (x : A) (l : list A) : x ∈ removelast l → x ∈ l.
Proof.
  induction l as [|a [|b l] IH]; [done| |].
  - by intros ?%elem_of_nil.
  - cbn [removelast]. intros [->|Hin]%elem_of_cons.
    + apply elem_of_cons. by left.
    + apply elem_of_cons. right. by apply IH.
Qed.

Section ProjectInitializer.
Context `{Builtins} `{ConfigParserLib} `{Collaborators}.
Implicit Types (w : World) (name : path).

Lemma quiet_select_resolution : quiet select_resolution.
Proof.
  unfold select_resolution.
  destruct (_ <$> QUALITIES) as [|o opts]; [auto with quiet|].
  apply quiet_bind; [auto with quiet|]. intros choice.
  destruct (filter _ _); auto with quiet.
Qed.

Lemma quiet_ask_settings template_name defaults new_cfg :
  quiet (ask_settings template_name defaults new_cfg).
Proof.
  revert new_cfg. induction defaults as [|[key value] rest IH]; intros new_cfg.
  - auto with quiet.
  - cbn [ask_settings]. apply quiet_bind; [|intros v; apply IH].
    pose proof quiet_select_resolution. repeat case_decide; auto with quiet.
Qed.

Lemma quiet_prompt_template : quiet prompt_template.
Proof. unfold prompt_template. auto with quiet. Qed.

Lemma quiet_ask_project_name arg : quiet (ask_project_name arg).
Proof. destruct arg; cbn; auto with quiet. Qed.

(** the two prompts that open [project] only read from the terminal *)
Lemma opening_prompts_typed_only arg w name w1 template_name w2 :
  ask_project_name arg w = (inr name, w1) →
  prompt_template w1 = (inr template_name, w2) →
  typed_only w w2.
Proof.
  intros Hname Htemplate. eapply typed_only_trans.
  - generalize (quiet_ask_project_name arg w). by rewrite Hname.
  - generalize (quiet_prompt_template w1). by rewrite Htemplate.
Qed.

(** the pair that [select_resolution] returns has the height first *)
Lemma select_resolution_height_first w res w' :
  select_resolution w = (inr res, w') →
  ∃ q, q ∈ QUALITIES.*2 ∧ res = (pixel_height q, pixel_width q).
Proof.
  unfold select_resolution.
  destruct (_ <$> QUALITIES) as [|o opts] eqn:Hopts; [done|].
  rewrite bind_run. destruct (click_prompt _ _ w) as [[e|choice] w1]; [done|].
  destruct (filter _ _) as [|m ms] eqn:Hfilter; [done|].
  intros [= <- <-].
  assert (Hin : m ∈ filter (λ res, label res = choice) (removelast (o :: opts))).
  { rewrite Hfilter. apply elem_of_cons. by left. }
  apply list_elem_of_filter in Hin as [_ Hin].
  apply elem_of_removelast in Hin. rewrite <- Hopts in Hin.
  apply list_elem_of_fmap in Hin as ([name q] & -> & Hq).
  exists q. split; [|done].
  apply list_elem_of_fmap. by exists (name, q).
Qed.

(** [update_cfg] stores the first component as the width *)
Lemma update_items_resolution a b sec :
  before_set (pretty a) = true → before_set (pretty b) = true →
  update_items [("resolution", VPair a b)] sec
  = inr (<[optionxform "pixel_height" := pretty b]>
           (<[optionxform "pixel_width" := pretty a]> sec)).
Proof.
  intros Ha Hb. cbn. unfold set_option. rewrite Ha, Hb.
  by repeat case_decide.
Qed.

(** C7, as the code has it.  When the project name is a directory, [project]
    prints that the folder exists and returns, without raising: the
    file system is as before (no directory made, nothing copied, no config
    written), and no collaborator has been called. *)
Theorem project_existing_folder default_settings arg w name w1 template_name w2 :
  ask_project_name arg w = (inr name, w1) →
  prompt_template w1 = (inr template_name, w2) →
  fs w !! name = Some Dir →
  let r := project default_settings arg w in
  r.1 = inr tt ∧
  fs r.2 = fs w ∧
  copied r.2 = copied w ∧
  imported r.2 = imported w ∧
  console r.2 = (console w ++ [FolderExists name])%list.
Proof.
  intros Hname Htemplate Hdir r.
  pose proof (opening_prompts_typed_only _ _ _ _ _ _ Hname Htemplate) as Hw2.
  apply typed_only_same in Hw2 as (Hfs & Hconsole & Hcopied & Himported).
  assert (Hr : r = console_print (FolderExists name) w2).
  { subst r. unfold project.
    rewrite (bind_inr _ _ _ _ _ Hname), (bind_inr _ _ _ _ _ Htemplate).
    rewrite bind_run. unfold is_dir. by rewrite Hfs, (stat_present _ _ _ Hdir). }
  rewrite Hr. cbn. by rewrite Hfs, Hconsole, Hcopied, Himported.
Qed.

(** C8. On the interactive path, with a project name at which there is
    nothing and whose directory can be made (the directory that is to hold
    it is there): up to the question whether to continue only the directory
    has been made; when the user declines, [project] aborts: nothing has
    been copied, no config has been written, and the directory stays. *)
Theorem project_declined arg w name w1 template_name w2 new_cfg w3 rest :
  ask_project_name arg w = (inr name, w1) →
  prompt_template w1 = (inr template_name, w2) →
  stat (fs w) name = None →
  check_parent (fs w) name = None →
  ask_settings template_name CFG_DEFAULTS []
    (set_fs (<[name := Dir]> (fs w2)) w2) = (inr new_cfg, w3) →
  confirm_loop (Some true) (stdin w3) = (inr false, rest) →
  let r := project false arg w in
  (fs w3 = <[name := Dir]> (fs w) ∧ copied w3 = copied w ∧ imported w3 = imported w) ∧
  r.1 = inl Abort ∧
  fs r.2 = <[name := Dir]> (fs w) ∧
  copied r.2 = copied w ∧
  imported r.2 = imported w.
Proof.
  intros Hname Htemplate Habsent Hparent Hask Hconfirm r.
  pose proof (opening_prompts_typed_only _ _ _ _ _ _ Hname Htemplate) as Hw2.
  apply typed_only_same in Hw2 as (Hfs & _ & Hcopied & Himported).
  assert (Hw3 : typed_only (set_fs (<[name := Dir]> (fs w2)) w2) w3).
  { generalize (quiet_ask_settings template_name CFG_DEFAULTS []
                  (set_fs (<[name := Dir]> (fs w2)) w2)).
    by rewrite Hask. }
  apply typed_only_same in Hw3 as (Hfs3 & _ & Hcopied3 & Himported3).
  cbn in Hfs3, Hcopied3, Himported3.
  rewrite Hfs in Hfs3. rewrite Hcopied in Hcopied3. rewrite Himported in Himported3.
  split; [done|].
  assert (Hr : r = (inl Abort,
                    set_stdin rest (mkWorld (fs w3) (stdin w3)
                                      (console w3 ++ [ShowConfig new_cfg])%list
                                      (copied w3) (imported w3)))).
  { subst r. unfold project.
    rewrite (bind_inr _ _ _ _ _ Hname), (bind_inr _ _ _ _ _ Htemplate).
    rewrite bind_run. unfold is_dir. rewrite Hfs, Habsent.
    rewrite bind_run. unfold mkdir. rewrite Hfs, Habsent, Hparent.
    cbn [negb]. rewrite <- Hfs. rewrite (bind_inr _ _ _ _ _ Hask).
    rewrite bind_run. unfold console_print.
    rewrite bind_run. unfold click_confirm. cbn [stdin].
    by rewrite Hconfirm. }
  by rewrite Hr.
Qed.

End ProjectInitializer.

Lemma project_existing_folder_witness :
  let proj := Pathlib.Path "proj" in
  let w := Sample.world (<[proj := Dir]> Sample.installed) [""] in
  let r := project true (Some proj) w in
  r.1 = inr tt ∧
  fs r.2 = fs w ∧
  copied r.2 = copied w ∧
  imported r.2 = imported w ∧
  console r.2 = (console w ++ [FolderExists proj])%list.
Proof.
  intros proj w.
  apply (project_existing_folder (H := Sample.builtins) (H0 := Sample.configparser)
           (H1 := Sample.collaborators) true (Some proj) w proj w "Default"
           (set_stdin [] w)).
  - reflexivity.
  - reflexivity.
  - reflexivity.
Defined.

(** C7, as the spec has it, asks for a failure.  A second [project] call on
    the same name, after a first one that made the directory, returns
    normally: no exception is raised. *)
Lemma second_create_returns_normally :
  let proj := Pathlib.Path "proj" in
  let first := project true (Some proj) (Sample.world Sample.installed [""; ""]) in
  let second := project true (Some proj) first.2 in
  first.1 = inr tt ∧
  fs first.2 !! proj = Some Dir ∧
  second.1 = inr tt ∧
  ¬ (∃ e, second.1 = inl e).
Proof.
  intros proj first second.
  assert (Hsecond : second.1 = inr tt) by reflexivity.
  split; [reflexivity|]. split; [reflexivity|]. split; [exact Hsecond|].
  intros [e He]. rewrite Hsecond in He. discriminate He.
Qed.

Lemma project_declined_witness :
  let proj := Pathlib.Path "proj" in
  let w := Sample.world Sample.installed [""; ""; ""; ""; ""; "n"] in
  let r := project false (Some proj) w in
  r.1 = inl Abort ∧
  fs r.2 = <[proj := Dir]> (fs w) ∧
  copied r.2 = copied w ∧
  imported r.2 = imported w.
Proof.
  intros proj w.
  apply (proj2 (project_declined (H := Sample.builtins) (H0 := Sample.configparser)
                  (H1 := Sample.collaborators) (Some proj) w proj w "Default"
                  (set_stdin [""; ""; ""; ""; "n"] w)
                  [ ("frame_rate", VInt 30); ("background_color", VStr "BLACK");
                    ("background_opacity", VInt 1);
                    ("scene_names", VStr "DefaultTemplate");
                    ("resolution", VPair 480 854) ]
                  (Sample.world (<[proj := Dir]> Sample.installed) ["n"]) []
                  eq_refl eq_refl eq_refl eq_refl eq_refl eq_refl)).
Defined.

(** C1.  The tier the user selects is returned height first, and
    [update_cfg] writes the first component as [pixel_width].  With every
    prompt answered by its default, the tier is 480p (height 480, width
    854): the interactive path stores [pixel_width = 480] and
    [pixel_height = 854], where the [--default] path, from the same
    defaults, stores [pixel_width = 854] and [pixel_height = 480]. *)
Theorem interactive_resolution_is_stored_swapped :
  let proj := Pathlib.Path "proj" in
  let cfg := Pathlib.Path "proj/manim.cfg" in
  let interactive :=
    project false (Some proj) (Sample.world Sample.installed [""; ""; ""; ""; ""; "y"]) in
  let defaults := project true (Some proj) (Sample.world Sample.installed [""]) in
  QUALITIES !! 4%nat = Some ("low_quality", mkQuality 480 854) ∧
  interactive.1 = inr tt ∧
  Sample.cli_option interactive.2 cfg "pixel_width" = Some "480" ∧
  Sample.cli_option interactive.2 cfg "pixel_height" = Some "854" ∧
  defaults.1 = inr tt ∧
  Sample.cli_option defaults.2 cfg "pixel_width" = Some "854" ∧
  Sample.cli_option defaults.2 cfg "pixel_height" = Some "480".
Proof. evaluate. Qed.

Example interactive_resolution_720p :
  let cfg := Pathlib.Path "proj/manim.cfg" in
  let r := project false (Some (Pathlib.Path "proj"))
             (Sample.world Sample.installed [""; "24"; "WHITE"; ""; "720p"; "yes"]) in
  r.1 = inr tt ∧
  Sample.cli_option r.2 cfg "frame_rate" = Some "24" ∧
  Sample.cli_option r.2 cfg "background_color" = Some "WHITE" ∧
  Sample.cli_option r.2 cfg "scene_names" = Some "DefaultTemplate" ∧
  Sample.cli_option r.2 cfg "pixel_width" = Some "720" ∧
  Sample.cli_option r.2 cfg "pixel_height" = Some "1280".
Proof. evaluate. Qed.

(** * Further properties of the commands *)


(** ** More on the terminal prompts *)

Section Prompts.
Context `{Builtins}.

(** what a prompt returns comes from the default or from a typed line *)
Lemma prompt_loop_result {A} (conv : string → converted A) (dflt : converted A)
    (lines rest : list string) (a : A) :
  prompt_loop conv dflt lines = (inr a, rest) →
  dflt = Converted a ∨ ∃ l, l ∈ lines ∧ conv l = Converted a.
Proof.
  induction lines as [|l lines IH]; [done|]. cbn [prompt_loop].
  destruct (decide (l = "")) as [->|Hl].
  - destruct dflt as [a'| |e] eqn:Hd.
    + intros [= <- <-]. by left.
    + intros [?|(l' & ? & ?)]%IH; [by left|]. right. exists l'. split; [|done].
      apply elem_of_cons. by right.
    + done.
  - destruct (conv l) as [a'| |e] eqn:Hc.
    + intros [= <- <-]. right. exists l. split; [|done]. apply elem_of_cons. by left.
    + intros [?|(l' & ? & ?)]%IH; [by left|]. right. exists l'. split; [|done].
      apply elem_of_cons. by right.
    + done.
Qed.

(** a prompt whose type never raises ends in a value or in [Abort] *)
Lemma prompt_loop_abort {A} (conv : string → converted A) (dflt : converted A)
    (lines rest : list string) (e : exn) :
  (∀ l e', conv l ≠ Raises e') → (∀ e', dflt ≠ Raises e') →
  prompt_loop conv dflt lines = (inl e, rest) → e = Abort.
Proof.
  intros Hconv Hdflt. induction lines as [|l lines IH]; [by intros [= <- <-]|].
  cbn [prompt_loop]. destruct (decide (l = "")).
  - destruct dflt as [a'| |e'] eqn:Hd; [done|done|]. by destruct (Hdflt e').
  - destruct (conv l) as [a'| |e'] eqn:Hc; [done|done|]. by destruct (Hconv l e').
Qed.

(** rejected lines are passed over, the first accepted line decides *)
Lemma prompt_loop_skip {A} (conv : string → converted A) (dflt : converted A)
    (bad : list string) (l : string) (rest : list string) (a : A) :
  (∀ b, b ∈ bad → (if decide (b = "") then dflt else conv b) = Rejected) →
  (if decide (l = "") then dflt else conv l) = Converted a →
  prompt_loop conv dflt (bad ++ l :: rest)%list = (inr a, rest).
Proof.
  intros Hbad Hl. induction bad as [|b bad IH]; cbn [app prompt_loop].
  - by rewrite Hl.
  - rewrite (Hbad b) by (apply elem_of_cons; by left).
    apply IH. intros b' Hb'. apply Hbad. apply elem_of_cons. by right.
Qed.

Lemma Choice_converted choices s c :
  Choice choices s = Converted c → c = s ∧ s ∈ choices.
Proof. unfold Choice. case_decide; [|done]. by intros [= <-]. Qed.

Lemma Choice_not_raises choices s e : Choice choices s ≠ Raises e.
Proof. unfold Choice. by case_decide. Qed.

Lemma Choice_nocase_converted choices s c :
  Choice_nocase choices s = Converted c → c ∈ choices.
Proof.
  unfold Choice_nocase.
  destruct (last _) as [c'|] eqn:Hlast; [|done]. intros [= <-].
  apply last_Some in Hlast as [l' Hl'].
  assert (Hin : c' ∈ filter (λ c, str_casefold c = str_casefold s) choices).
  { rewrite Hl'. apply elem_of_app. right. apply elem_of_cons. by left. }
  by apply list_elem_of_filter in Hin as [_ ?].
Qed.

End Prompts.

Lemma filter_head {A} (P : A → Prop) `{∀ x, Decision (P x)} (l : list A) x xs :
  filter P l = x :: xs →
  ∃ pre post, l = (pre ++ x :: post)%list ∧ P x ∧ ∀ y, y ∈ pre → ¬ P y.
Proof.
  induction l as [|a l IH]; [done|]. rewrite filter_cons. case_decide as Ha.
  - intros [= <- <-]. exists [], l. split; [done|]. split; [done|].
    by intros y ?%elem_of_nil.
  - intros (pre & post & -> & Hx & Hpre)%IH. exists (a :: pre), post.
    split; [done|]. split; [done|].
    intros y [->|Hy]%elem_of_cons; [done|by apply Hpre].
Qed.

Lemma filter_first {A} (P : A → Prop) `{∀ x, Decision (P x)} (pre post : list A) x :
  P x → (∀ y, y ∈ pre → ¬ P y) →
  ∃ xs, filter P (pre ++ x :: post)%list = x :: xs.
Proof.
  intros Hx Hpre. induction pre as [|a pre IH]; cbn [app].
  - rewrite filter_cons, decide_True by done. eauto.
  - rewrite filter_cons, decide_False.
    + apply IH. intros y Hy. apply Hpre. apply elem_of_cons. by right.
    + apply Hpre. apply elem_of_cons. by left.
Qed.

(** ** The resolution catalog *)

Section ResolutionCatalog.
Context `{Builtins} `{Collaborators}.
Implicit Types (w : World) (res : Z * Z).

Lemma select_resolution_unfold w :
  QUALITIES ≠ [] →
  select_resolution w =
  (click_prompt (Choice (label <$> offered)) (Choice (label <$> offered) "480p") ≫=
   λ choice, match filter (λ res, label res = choice) offered with
             | [] => raise IndexError
             | res :: _ => mret res
             end) w.
Proof.
  intros Hne. unfold select_resolution, offered.
  destruct QUALITIES as [|q qs]; [done|]. done.
Qed.

(** X1. What [select_resolution] returns is one of the offered tiers (never
    the last entry of [QUALITIES]), as a (height, width) pair, and it is the
    first offered tier with its label: an earlier tier with the same height
    would have been returned instead. *)
Theorem select_resolution_first_offered w res w' :
  select_resolution w = (inr res, w') →
  ∃ pre post, offered = (pre ++ res :: post)%list ∧
              ∀ r, r ∈ pre → label r ≠ label res.
Proof.
  destruct (decide (QUALITIES = [])) as [Hq|Hq].
  { unfold select_resolution. by rewrite Hq. }
  rewrite select_resolution_unfold by done. rewrite bind_run.
  destruct (click_prompt _ _ w) as [[e|choice] w1]; [done|].
  destruct (filter _ offered) as [|m ms] eqn:Hfilter; [done|].
  intros [= <- <-].
  apply filter_head in Hfilter as (pre & post & Hoff & Hm & Hpre).
  exists pre, post. split; [done|]. intros r Hr. rewrite Hm. by apply Hpre.
Qed.

(** X2. With an empty catalog [select_resolution] raises [IndexError] (the
    [pop]) before asking anything.  With a non-empty catalog the only way it
    fails is [Abort] at the end of the input: the choice that the prompt
    returns is always one of the offered labels, so [matches[0]] exists. *)
Theorem select_resolution_failures w :
  (QUALITIES = [] → select_resolution w = (inl IndexError, w)) ∧
  (QUALITIES ≠ [] → ∀ e, (select_resolution w).1 = inl e → e = Abort).
Proof.
  split.
  - intros Hq. unfold select_resolution. by rewrite Hq.
  - intros Hq e. rewrite select_resolution_unfold by done. rewrite bind_run.
    unfold click_prompt.
    destruct (prompt_loop _ _ (stdin w)) as [[e'|choice] rest] eqn:Hloop.
    + cbn. intros [= ->]. eapply prompt_loop_abort; [..|exact Hloop].
      * intros l e''. apply Choice_not_raises.
      * intros e''. apply Choice_not_raises.
    + assert (Hin : choice ∈ label <$> offered).
      { apply prompt_loop_result in Hloop as [Hd|(l & _ & Hl)].
        - by apply Choice_converted in Hd as [-> ?].
        - by apply Choice_converted in Hl as [-> ?]. }
      apply list_elem_of_fmap in Hin as (r & -> & Hr).
      destruct (filter _ offered) as [|m ms] eqn:Hfilter; [|done].
      assert (r ∈ filter (λ res, label res = label r) offered) as Hr'
        by by apply list_elem_of_filter.
      rewrite Hfilter in Hr'. by apply elem_of_nil in Hr'.
Qed.

(** X3. Lines that are not offered labels are passed over, and the first
    line that is one decides; an empty line stands for ["480p"].  The tier
    returned is the first offered one with that label, and the input is
    consumed up to and including the deciding line. *)
Theorem select_resolution_accepts w bad l rest pre res post :
  stdin w = (bad ++ l :: rest)%list →
  let answer s := if decide (s = "") then "480p" else s in
  (∀ b, b ∈ bad → answer b ∉ label <$> offered) →
  offered = (pre ++ res :: post)%list →
  label res = answer l →
  (∀ r, r ∈ pre → label r ≠ answer l) →
  select_resolution w = (inr res, set_stdin rest w).
Proof.
  intros Hstdin answer Hbad Hoff Hres Hpre.
  assert (Hq : QUALITIES ≠ []).
  { intros Hq. unfold offered in Hoff. rewrite Hq in Hoff. by destruct pre. }
  assert (Hin : answer l ∈ label <$> offered).
  { rewrite <- Hres. apply list_elem_of_fmap. exists res. split; [done|].
    rewrite Hoff. apply elem_of_app. right. apply elem_of_cons. by left. }
  rewrite select_resolution_unfold by done. rewrite bind_run.
  unfold click_prompt. rewrite Hstdin.
  rewrite (prompt_loop_skip _ _ bad l rest (answer l)).
  - destruct (filter_first (λ r, label r = answer l) pre post res Hres Hpre)
      as [xs Hxs].
    by rewrite Hoff, Hxs.
  - intros b Hb. specialize (Hbad b Hb). unfold answer in Hbad.
    unfold Choice. destruct (decide (b = "")); by rewrite decide_False.
  - unfold answer in *. unfold Choice.
    destruct (decide (l = "")); by rewrite decide_True.
Qed.

End ResolutionCatalog.

Lemma select_resolution_first_offered_witness :
  ∃ pre post, offered = (pre ++ (720, 1280)%Z :: post)%list ∧
              ∀ r, r ∈ pre → label r ≠ label (720, 1280)%Z.
Proof.
  apply (select_resolution_first_offered (Sample.world ∅ ["720p"]) (720, 1280)%Z
           (Sample.world ∅ [])).
  reflexivity.
Defined.

Lemma select_resolution_failures_witness :
  @select_resolution Sample.empty_catalog (Sample.world ∅ ["480p"])
  = (inl IndexError, Sample.world ∅ ["480p"]) ∧
  (∀ e, (select_resolution (Sample.world ∅ ["4k"])).1 = inl e → e = Abort).
Proof.
  split.
  - by apply (proj1 (select_resolution_failures (H0 := Sample.empty_catalog)
                       (Sample.world ∅ ["480p"]))).
  - by apply (proj2 (select_resolution_failures (Sample.world ∅ ["4k"]))).
Defined.

Lemma select_resolution_accepts_witness :
  select_resolution (Sample.world ∅ ["4k"; "720P"; "720p"; "y"])
  = (inr (720, 1280)%Z, Sample.world ∅ ["y"]).
Proof.
  apply (select_resolution_accepts (Sample.world ∅ ["4k"; "720P"; "720p"; "y"])
           ["4k"; "720P"] "720p" ["y"]
           [(2160, 3840); (1440, 2560); (1080, 1920)]%Z (720, 1280)%Z [(480, 854)%Z]).
  - reflexivity.
  - intros b Hb Hin. revert Hin.
    apply elem_of_cons in Hb as [->|Hb];
      [|apply elem_of_cons in Hb as [->|Hb%elem_of_nil]; [|done]].
    all: vm_compute; intros Hin.
    all: repeat (apply elem_of_cons in Hin as [?|Hin]; [congruence|]).
    all: by apply elem_of_nil in Hin.
  - reflexivity.
  - reflexivity.
  - intros r Hr. vm_compute.
    repeat (apply elem_of_cons in Hr as [->|Hr]; [vm_compute; congruence|]).
    by apply elem_of_nil in Hr.
Defined.


Section ConfigWriterMore.
Context `{ConfigParserLib}.
Implicit Types (cfg items : dict) (sec : list (string * string)) (c : ConfigStore).
Implicit Types (p : path) (w : World).

Lemma update_items_app items1 items2 sec :
  update_items (items1 ++ items2)%list sec
  = update_items items1 sec ≫= update_items items2.
Proof.
  revert sec. induction items1 as [|[key value] rest IH]; intros sec; [done|].
  cbn [app update_items]. unfold mbind, exn_bind. case_decide.
  - destruct (getitem value 0); [done|].
    destruct (set_option sec _ _); [done|].
    destruct (getitem value 1); [done|].
    destruct (set_option _ _ _); [done|]. apply IH.
  - destruct (set_option sec _ _); [done|]. apply IH.
Qed.

(** what a call that returns has done *)
Lemma update_cfg_inr cfg p w :
  (update_cfg cfg p w).1 = inr tt →
  ∃ c sec sec',
    config_read p (fs w) = inr c ∧ c !! "CLI" = Some sec ∧
    update_items cfg sec = inr sec' ∧
    (write_ini (<["CLI" := sec']> c)).2 = None ∧
    update_cfg cfg p w
    = (inr tt, set_fs (<[p := File (write_ini (<["CLI" := sec']> c)).1]> (fs w)) w).
Proof.
  rewrite update_cfg_unfold.
  destruct (config_read p (fs w)) as [e|c] eqn:Hread; [done|].
  destruct (c !! "CLI") as [sec|] eqn:Hsec; [|done].
  destruct (update_items cfg sec) as [e|sec'] eqn:Hrun; [done|].
  rewrite (config_write_after_read _ _ _ _ _ Hread Hsec).
  destruct (write_ini (<["CLI" := sec']> c)).2 eqn:Hwrite; [done|]. intros _.
  by exists c, sec, sec'.
Qed.

(** X4. When [update_cfg] raises before it opens the file (unreadable
    store, missing section, a value that cannot be stored), the world is
    exactly as before: the assignments made in memory are not written.  The
    only other failure is one of [config.write] itself, for a store that
    had been read and updated: the file then holds what had been written of
    it, and nothing else has changed. *)
Theorem update_cfg_failure cfg p w e :
  (update_cfg cfg p w).1 = inl e →
  (update_cfg cfg p w).2 = w ∨
  ∃ c sec sec',
    config_read p (fs w) = inr c ∧ c !! "CLI" = Some sec ∧
    update_items cfg sec = inr sec' ∧
    (write_ini (<["CLI" := sec']> c)).2 = Some e ∧
    (update_cfg cfg p w).2
    = set_fs (<[p := File (write_ini (<["CLI" := sec']> c)).1]> (fs w)) w.
Proof.
  rewrite update_cfg_unfold.
  destruct (config_read p (fs w)) as [e'|c] eqn:Hread; [by left|].
  destruct (c !! "CLI") as [sec|] eqn:Hsec; [|by left].
  destruct (update_items cfg sec) as [e'|sec'] eqn:Hrun; [by left|].
  rewrite (config_write_after_read _ _ _ _ _ Hread Hsec).
  destruct (write_ini (<["CLI" := sec']> c)).2 as [e'|] eqn:Hwrite; [|done].
  intros [= ->]. right. by exists c, sec, sec'.
Qed.





End ConfigWriterMore.

Lemma update_cfg_failure_witness :
  let w := Sample.world Sample.project_fs [] in
  let r := update_cfg Sample.bad_settings (Pathlib.Path "manim.cfg") w in
  r.1 = inl TypeError ∧
  (r.2 = w ∨
   ∃ c sec sec',
     config_read (Pathlib.Path "manim.cfg") (fs w) = inr c ∧ c !! "CLI" = Some sec ∧
     update_items Sample.bad_settings sec = inr sec' ∧
     (write_ini (<["CLI" := sec']> c)).2 = Some TypeError ∧
     r.2 = set_fs (<[Pathlib.Path "manim.cfg" :=
                       File (write_ini (<["CLI" := sec']> c)).1]> (fs w)) w).
Proof.
  intros w r. split; [reflexivity|].
  apply (update_cfg_failure Sample.bad_settings (Pathlib.Path "manim.cfg") w TypeError).
  reflexivity.
Defined.

Example update_cfg_failure_sample :
  let w := Sample.world Sample.project_fs [] in
  update_cfg Sample.bad_settings (Pathlib.Path "manim.cfg") w = (inl TypeError, w).
Proof. reflexivity. Qed.

Lemma resolution_not_frame_rate :
  ¬ mentions [("resolution", VPair 1280 720)] (optionxform "frame_rate").
Proof.
  intros (key & Hin & Has). cbn in Hin.
  apply elem_of_cons in Hin as [->|?%elem_of_nil]; [|done].
  vm_compute in Has. apply elem_of_cons in Has as [?|Has]; [done|].
  apply elem_of_cons in Has as [?|?%elem_of_nil]; done.
Qed.

Lemma nothing_mentioned k : ¬ mentions (H0 := Sample.configparser) [] k.
Proof. intros (key & Hin & _). by apply elem_of_nil in Hin. Qed.





(** ** Paths that name a file *)

Section NamedPaths.

Lemma split_slash_app_last s t :
  Str.split_slash t = [t] →
  ∃ init l, Str.split_slash (s +:+ t) = (init ++ [l +:+ t])%list.
Proof.
  intros Ht. induction s as [|c s IH].
  - exists [], "". by rewrite !app_nil_l, Ht.
  - destruct IH as (init & l & IH). rewrite app_cons. cbn [Str.split_slash].
    rewrite IH. case_decide.
    + by exists ("" :: init), l.
    + destruct init as [|h init]; cbn [app].
      * exists [], (String c l). by rewrite app_cons.
      * by exists (String c h :: init), l.
Qed.

Lemma length_append s t :
  String.length (s +:+ t) = (String.length s + String.length t)%nat.
Proof.
  induction s as [|c s IH]; [by rewrite app_nil_l|].
  rewrite app_cons. cbn. by rewrite IH.
Qed.

(** a text that ends in [".mtp"] is a path with a last component, which is
    neither empty nor a dot name *)
Lemma Path_stub_last s :
  ∃ init l, (Pathlib.Path (s +:+ ".mtp")).2 = (init ++ [l])%list ∧ l ≠ "..".
Proof.
  destruct (split_slash_app_last s ".mtp" eq_refl) as (init & l & Hsplit).
  assert (Hlen : (4 ≤ String.length (l +:+ ".mtp"))%nat).
  { rewrite length_append. cbn. lia. }
  exists (filter (λ c, c ≠ "" ∧ c ≠ ".") init), (l +:+ ".mtp").
  unfold Pathlib.Path. cbn [snd]. rewrite Hsplit, filter_app. split.
  - f_equal. rewrite filter_cons_True; [done|].
    split; intros Heq; rewrite Heq in Hlen; cbn in Hlen; lia.
  - intros Heq. rewrite Heq in Hlen. cbn in Hlen. lia.
Qed.

(** so the stub of a template is never the working directory or above it:
    what is not in the file system at its path is not there *)
Lemma stat_stub_absent f p t :
  f !! Pathlib.joinpath p (t +:+ ".mtp") = None →
  stat f (Pathlib.joinpath p (t +:+ ".mtp")) = None.
Proof.
  intros Habsent. unfold stat. rewrite Habsent.
  rewrite bool_decide_false; [done|].
  destruct (Path_stub_last t) as (init & l & Hparts & Hl).
  unfold Pathlib.joinpath. case_decide; cbn [snd]; rewrite Hparts.
  - rewrite (assoc_L (++)), Forall_app, Forall_singleton. tauto.
  - rewrite Forall_app, Forall_singleton. tauto.
Qed.

End NamedPaths.

Section CommandsMore.
Context `{Builtins} `{ConfigParserLib} `{Collaborators}.
Implicit Types (w : World) (name : path).

Lemma click_prompt_inr {A} (conv : string → converted A) dflt w (a : A) w' :
  click_prompt conv dflt w = (inr a, w') →
  dflt = Converted a ∨ ∃ l, l ∈ stdin w ∧ conv l = Converted a.
Proof.
  unfold click_prompt.
  destruct (prompt_loop conv dflt (stdin w)) as [r rest] eqn:Hloop.
  intros [= -> <-]. by apply prompt_loop_result in Hloop.
Qed.

(** X13. The template name that [project] and [scene] go on with is always
    one of the names that [get_template_names] lists, whatever the user
    typed; asking for it only reads from the terminal. *)
Theorem prompt_template_registered w template_name w' :
  prompt_template w = (inr template_name, w') →
  template_name ∈ get_template_names (fs w) ∧ typed_only w w'.
Proof.
  intros Hrun. split.
  - unfold prompt_template in Hrun. rewrite bind_run in Hrun. cbn in Hrun.
    apply click_prompt_inr in Hrun as [Hd|(l & _ & Hl)];
      by eapply Choice_nocase_converted.
  - generalize (quiet_prompt_template w). by rewrite Hrun.
Qed.

Lemma prompt_default_kind v w v' w' :
  prompt_default v w = (inr v', w') →
  match v with
  | VInt _ => ∃ n, v' = VInt n
  | VStr _ => ∃ s, v' = VStr s
  | VPair _ _ => ∃ n, v' = VInt n
  end.
Proof.
  destruct v as [d|d|a b]; cbn [prompt_default].
  - intros [Hd|(l & _ & Hl)]%click_prompt_inr.
    + injection Hd as <-. eauto.
    + unfold INT in Hl. destruct (int_of_str l); [|done]. injection Hl as <-. eauto.
  - intros [Hd|(l & _ & Hl)]%click_prompt_inr.
    + injection Hd as <-. eauto.
    + injection Hl as <-. eauto.
  - intros [Hd|(l & _ & Hl)]%click_prompt_inr; [done|].
    unfold INT in Hl. destruct (int_of_str l); [|done]. injection Hl as <-. eauto.
Qed.

Lemma select_resolution_offered w res w' :
  select_resolution w = (inr res, w') → res ∈ offered.
Proof.
  unfold select_resolution, offered.
  destruct (_ <$> QUALITIES) as [|o opts] eqn:Hopts; [done|].
  rewrite bind_run. destruct (click_prompt _ _ w) as [[e|choice] w1]; [done|].
  destruct (filter _ _) as [|m ms] eqn:Hfilter; [done|].
  intros [= <- <-].
  assert (Hin : m ∈ filter (λ res, label res = choice) (removelast (o :: opts))).
  { rewrite Hfilter. apply elem_of_cons. by left. }
  by apply list_elem_of_filter in Hin as [_ Hin].
Qed.

(** X12. The config built on the interactive path has the five keys of
    [CFG_DEFAULTS], in their order: numbers for [frame_rate] and
    [background_opacity], a text for [background_color], the template name
    followed by ["Template"] for [scene_names], and an offered tier for
    [resolution]. *)
Theorem ask_settings_shape template_name w new_cfg w' :
  ask_settings template_name CFG_DEFAULTS [] w = (inr new_cfg, w') →
  ∃ frame_rate background_color background_opacity res,
    new_cfg = [ ("frame_rate", VInt frame_rate);
                ("background_color", VStr background_color);
                ("background_opacity", VInt background_opacity);
                ("scene_names", VStr (template_name +:+ "Template"));
                ("resolution", VPair res.1 res.2) ] ∧
    res ∈ offered.
Proof.
  unfold CFG_DEFAULTS. cbn [ask_settings].
  repeat (case_decide; try congruence).
  rewrite bind_run.
  destruct (prompt_default (VInt 30) w) as [[e|v1] w1] eqn:H1'; [done|].
  apply prompt_default_kind in H1' as [fr ->].
  rewrite bind_run.
  destruct (prompt_default (VStr "BLACK") w1) as [[e|v2] w2] eqn:H2'; [done|].
  apply prompt_default_kind in H2' as [bc ->].
  rewrite bind_run.
  destruct (prompt_default (VInt 1) w2) as [[e|v3] w3] eqn:H3'; [done|].
  apply prompt_default_kind in H3' as [bo ->].
  rewrite bind_run. cbn [mret M_ret].
  rewrite bind_run. rewrite bind_run.
  destruct (select_resolution w3) as [[e|res] w4] eqn:H4'; [done|].
  apply select_resolution_offered in H4'.
  cbn. intros [= <- <-]. by exists fr, bc, bo, res.
Qed.


Lemma str_defaults :
  str (VInt 30) = "30" ∧ str (VInt 1) = "1" ∧ str (VPair 854 480) = "(854, 480)" ∧
  pretty 854%Z = "854" ∧ pretty 480%Z = "480".
Proof. by vm_compute. Qed.

Lemma set_option_valid sec key v :
  before_set v = true →
  set_option sec key v = inr (<[optionxform key := v]> sec).
Proof. intros Hv. unfold set_option. rewrite Hv. by case_decide. Qed.


(** X10. When the project name is taken by a file that is not a directory,
    [project] raises [FileExistsError] (from [mkdir]): nothing is printed,
    copied or written. *)
Theorem project_name_is_a_file default_settings arg w name w1 template_name w2 n :
  ask_project_name arg w = (inr name, w1) →
  prompt_template w1 = (inr template_name, w2) →
  fs w !! name = Some n →
  n ≠ Dir →
  project default_settings arg w = (inl FileExistsError, w2) ∧
  fs w2 = fs w ∧ console w2 = console w ∧ copied w2 = copied w.
Proof.
  intros Hname Htemplate Hn Hfile.
  pose proof (opening_prompts_typed_only _ _ _ _ _ _ Hname Htemplate) as Hw2.
  apply typed_only_same in Hw2 as (Hfs & Hconsole & Hcopied & _).
  split; [|done]. unfold project.
  rewrite (bind_inr _ _ _ _ _ Hname), (bind_inr _ _ _ _ _ Htemplate).
  rewrite bind_run. unfold is_dir. rewrite Hfs, (stat_present _ _ _ Hn).
  destruct n; [done|..]; rewrite bind_run; unfold mkdir;
    by rewrite Hfs, (stat_present _ _ _ Hn).
Qed.

(** X11. On the interactive path, with a project name at which there is
    nothing and whose directory can be made: when one of the prompts for
    the settings fails (the input ends, say), [project] fails with the same
    error; the directory has been made and is left behind, and nothing has
    been copied. *)
Theorem project_prompt_failure_leaves_directory
    arg w name w1 template_name w2 e w3 :
  ask_project_name arg w = (inr name, w1) →
  prompt_template w1 = (inr template_name, w2) →
  stat (fs w) name = None →
  check_parent (fs w) name = None →
  ask_settings template_name CFG_DEFAULTS []
    (set_fs (<[name := Dir]> (fs w2)) w2) = (inl e, w3) →
  project false arg w = (inl e, w3) ∧
  fs w3 = <[name := Dir]> (fs w) ∧
  copied w3 = copied w ∧
  imported w3 = imported w.
Proof.
  intros Hname Htemplate Habsent Hparent Hask.
  pose proof (opening_prompts_typed_only _ _ _ _ _ _ Hname Htemplate) as Hw2.
  apply typed_only_same in Hw2 as (Hfs & _ & Hcopied & Himported).
  assert (Hw3 : typed_only (set_fs (<[name := Dir]> (fs w2)) w2) w3).
  { generalize (quiet_ask_settings template_name CFG_DEFAULTS []
                  (set_fs (<[name := Dir]> (fs w2)) w2)).
    by rewrite Hask. }
  apply typed_only_same in Hw3 as (Hfs3 & _ & Hcopied3 & Himported3).
  cbn in Hfs3, Hcopied3, Himported3.
  rewrite Hfs in Hfs3. rewrite Hcopied in Hcopied3. rewrite Himported in Himported3.
  split; [|done]. unfold project.
  rewrite (bind_inr _ _ _ _ _ Hname), (bind_inr _ _ _ _ _ Htemplate).
  rewrite bind_run. unfold is_dir. rewrite Hfs, Habsent.
  rewrite bind_run. unfold mkdir. rewrite Hfs, Habsent, Hparent.
  cbn [negb]. rewrite <- Hfs. by rewrite bind_run, Hask.
Qed.

(** ** More on the scene inserter *)

(** X14. When the stub of the chosen template is not in the template
    directory, [scene] raises [FileNotFoundError] and has written nothing. *)
Theorem scene_template_unreadable scene_name file_name w template_name w1 :
  prompt_template w = (inr template_name, w1) →
  fs w !! Pathlib.joinpath get_template_path (template_name +:+ ".mtp") = None →
  scene scene_name file_name w = (inl FileNotFoundError, w1) ∧
  fs w1 = fs w ∧ imported w1 = imported w.
Proof.
  intros Htemplate Habsent.
  assert (Hw1 : typed_only w w1).
  { generalize (quiet_prompt_template w). by rewrite Htemplate. }
  apply typed_only_same in Hw1 as (Hfs & _ & _ & Himported).
  split; [|done]. unfold scene. rewrite (bind_inr _ _ _ _ _ Htemplate).
  rewrite bind_run. unfold read_text.
  by rewrite Hfs, (stat_stub_absent _ _ _ Habsent).
Qed.

(** X15. Without a file name, or with an empty one, the target is
    [main.py]: when it is a file, the separator and the rendered text are put
    at the end of its text; nothing else in the world changes, and
    [add_import_statement] is not called. *)
Theorem insert_scene_default_appends file_name text w old :
  file_name = None ∨ file_name = Some "" →
  fs w !! Pathlib.Path "main.py" ≫= file_text = Some old →
  insert_scene file_name text w
  = (inr tt, set_fs (<[Pathlib.Path "main.py" := File (old +:+ separator +:+ text)]>
                       (fs w)) w).
Proof.
  intros Hname Hold.
  assert (Hrun : insert_scene file_name text w
                 = append_text (Pathlib.Path "main.py") (separator +:+ text) w).
  { by destruct Hname as [->| ->]. }
  rewrite Hrun. unfold append_text, open_for_writing.
  by rewrite (stat_file _ _ _ Hold).
Qed.

Lemma insert_scene_target (name : string) text w target :
  name ≠ "" →
  target_of name = inr target →
  insert_scene (Some name) text w
  = (is_file target ≫= λ there : bool,
       if there then append_text target (separator +:+ text)
       else write_text target (separator +:+ text);;
            call_add_import_statement target) w.
Proof.
  intros Hname Htarget. unfold insert_scene. rewrite decide_False by done.
  by rewrite Htarget.
Qed.



End CommandsMore.

(** ** More on the suffix rule *)

Section SuffixRule.
Implicit Types (s n : string) (p t : path).

Lemma rfind_dot_py n : Str.rfind_dot (n +:+ ".py") = Some (String.length n).
Proof.
  induction n as [|c n IH]; [done|].
  rewrite app_cons. cbn [Str.rfind_dot String.length]. by rewrite IH.
Qed.

Lemma length_app s1 s2 :
  String.length (s1 +:+ s2) = String.length s1 + String.length s2.
Proof. induction s1 as [|c s1 IH]; [done|]. rewrite app_cons. cbn. by rewrite IH. Qed.

Lemma name_with_name p n : Pathlib.name (Pathlib.with_name p n) = n.
Proof. unfold Pathlib.name, Pathlib.with_name. cbn. by rewrite last_snoc. Qed.

Lemma suffix_with_py p n :
  n ≠ "" → Pathlib.suffix (Pathlib.with_name p (n +:+ ".py")) = ".py".
Proof.
  intros Hn. unfold Pathlib.suffix. rewrite name_with_name, rfind_dot_py.
  rewrite length_app. rewrite decide_True.
  - apply drop_app.
  - destruct n; [done|]. cbn. lia.
Qed.

Lemma with_suffix_no_name p sfx :
  Pathlib.name p = "" → Pathlib.with_suffix p sfx = inl ValueError.
Proof.
  intros Hname. unfold Pathlib.with_suffix. case_decide; [done|].
  by rewrite decide_True.
Qed.

Lemma suffix_no_name p : Pathlib.name p = "" → Pathlib.suffix p = "".
Proof. intros Hname. unfold Pathlib.suffix. by rewrite Hname. Qed.

(** X17. The target of an explicit file name always has the suffix
    [".py"], and lies where the given path lies: only the final component
    may differ. *)
Theorem target_of_has_py_suffix s t :
  target_of s = inr t →
  Pathlib.suffix t = ".py" ∧
  t.1 = (Pathlib.Path s).1 ∧
  removelast t.2 = removelast (Pathlib.Path s).2.
Proof.
  unfold target_of. set (p := Pathlib.Path s).
  destruct (decide (Pathlib.suffix p = ".py")) as [Hs|Hs].
  - rewrite decide_False by (by intros ?). by intros [= <-].
  - rewrite decide_True by done.
    destruct (decide (Pathlib.name p = "")) as [Hname|Hname].
    { by rewrite with_suffix_no_name. }
    rewrite with_suffix_py by done. intros [= <-].
    split; [by apply suffix_with_py|]. split; [done|].
    unfold Pathlib.with_name. cbn. apply removelast_last.
Qed.

(** X18. A file name without a final component (["."], ["/"]) has no
    target: the suffix rule raises [ValueError]; and that is the only way
    it fails. *)
Theorem target_of_fails_without_name s :
  (Pathlib.name (Pathlib.Path s) = "" → target_of s = inl ValueError) ∧
  (∀ e, target_of s = inl e → Pathlib.name (Pathlib.Path s) = "" ∧ e = ValueError).
Proof.
  unfold target_of. set (p := Pathlib.Path s). split.
  - intros Hname. rewrite decide_True by (by rewrite suffix_no_name).
    by apply with_suffix_no_name.
  - intros e. destruct (decide (Pathlib.suffix p = ".py")) as [Hs|Hs].
    + by rewrite decide_False by (by intros ?).
    + rewrite decide_True by done.
      destruct (decide (Pathlib.name p = "")) as [Hname|Hname].
      * rewrite with_suffix_no_name by done. by intros [= <-].
      * by rewrite with_suffix_py.
Qed.

End SuffixRule.

Lemma prompt_template_registered_witness :
  "MovingCamera" ∈ get_template_names (fs (Sample.world ∅ ["movingcamera"])) ∧
  typed_only (Sample.world ∅ ["movingcamera"]) (Sample.world ∅ []).
Proof.
  apply (prompt_template_registered (Sample.world ∅ ["movingcamera"])
           "MovingCamera" (Sample.world ∅ [])).
  reflexivity.
Defined.

Lemma ask_settings_shape_witness :
  ∃ frame_rate background_color background_opacity res,
    [ ("frame_rate", VInt 24); ("background_color", VStr "WHITE");
      ("background_opacity", VInt 1); ("scene_names", VStr "AxesTemplate");
      ("resolution", VPair 1080 1920) ]
    = [ ("frame_rate", VInt frame_rate);
        ("background_color", VStr background_color);
        ("background_opacity", VInt background_opacity);
        ("scene_names", VStr ("Axes" +:+ "Template"));
        ("resolution", VPair res.1 res.2) ] ∧
    res ∈ offered.
Proof.
  apply (ask_settings_shape "Axes" (Sample.world ∅ ["24"; "WHITE"; ""; "1080p"])
           _ (Sample.world ∅ [])).
  reflexivity.
Defined.


Lemma project_name_is_a_file_witness :
  let proj := Pathlib.Path "notes.txt" in
  let w := Sample.world Sample.project_fs [""] in
  project true (Some proj) w = (inl FileExistsError, Sample.world Sample.project_fs []) ∧
  fs (Sample.world Sample.project_fs []) = fs w ∧
  console (Sample.world Sample.project_fs []) = console w ∧
  copied (Sample.world Sample.project_fs []) = copied w.
Proof.
  intros proj w.
  apply (project_name_is_a_file true (Some proj) w proj w "Default"
           (Sample.world Sample.project_fs []) (File "todo")).
  - reflexivity.
  - reflexivity.
  - reflexivity.
  - done.
Defined.

Lemma project_prompt_failure_leaves_directory_witness :
  let proj := Pathlib.Path "proj" in
  let w := Sample.world Sample.installed [""; "24"] in
  let w3 := Sample.world (<[proj := Dir]> Sample.installed) [] in
  project false (Some proj) w = (inl Abort, w3) ∧
  fs w3 = <[proj := Dir]> (fs w) ∧
  copied w3 = copied w ∧
  imported w3 = imported w.
Proof.
  intros proj w w3.
  apply (project_prompt_failure_leaves_directory (Some proj) w proj w "Default"
           (Sample.world Sample.installed ["24"]) Abort w3).
  - reflexivity.
  - reflexivity.
  - reflexivity.
  - reflexivity.
  - reflexivity.
Defined.

Lemma scene_template_unreadable_witness :
  let w := Sample.world Sample.installed ["axes"] in
  scene "MyScene" None w = (inl FileNotFoundError, Sample.world Sample.installed []) ∧
  fs (Sample.world Sample.installed []) = fs w ∧
  imported (Sample.world Sample.installed []) = imported w.
Proof.
  intros w.
  apply (scene_template_unreadable "MyScene" None w "Axes").
  - reflexivity.
  - reflexivity.
Defined.

Lemma insert_scene_default_appends_witness :
  let main := Pathlib.Path "main.py" in
  let w := Sample.world {[ main := File "import os" ]} [] in
  insert_scene (Some "") "class A(Scene): pass" w
  = (inr tt, set_fs (<[main := File ("import os" +:+ separator +:+ "class A(Scene): pass")]>
                       (fs w)) w).
Proof.
  intros main w.
  apply (insert_scene_default_appends (Some "") "class A(Scene): pass" w "import os").
  - by right.
  - reflexivity.
Defined.



Lemma target_of_has_py_suffix_witness :
  Pathlib.suffix (Pathlib.Path "scenes/intro.v2.py") = ".py" ∧
  (Pathlib.Path "scenes/intro.v2.py").1 = (Pathlib.Path "scenes/intro.v2").1 ∧
  removelast (Pathlib.Path "scenes/intro.v2.py").2
  = removelast (Pathlib.Path "scenes/intro.v2").2.
Proof.
  apply (target_of_has_py_suffix "scenes/intro.v2" (Pathlib.Path "scenes/intro.v2.py")).
  reflexivity.
Defined.

Lemma target_of_fails_without_name_witness :
  target_of "./" = inl ValueError ∧
  (∀ e, target_of "/" = inl e → Pathlib.name (Pathlib.Path "/") = "" ∧ e = ValueError).
Proof.
  split.
  - by apply (proj1 (target_of_fails_without_name "./")).
  - apply (proj2 (target_of_fails_without_name "/")).
Defined.
